(** * Verification of the vml Ansible dynamic-inventory script

    The development embeds [files/scripts/inventory.py] (class
    [InventoryBuilder] and [main]) together with the parts of the Python
    runtime it calls: dictionaries with insertion order, sets, truthiness,
    [pathlib.PurePosixPath] and [ipaddress.ip_interface] (as of CPython
    3.9.5 to 3.12).

    The records printed by [vml show --format-json] are the input.  Each
    has a name, a string, and further entries holding JSON values, of which
    numbers are taken to be integers.  A run either prints a document or
    raises; whatever the exception, it is modelled by [None]. *)

From Stdlib Require Import ZArith Ascii String List Lia DecimalString HexadecimalString.
From stdpp Require Import base option list gmap strings.

Local Open Scope string_scope.
Local Open Scope list_scope.

(** ** Python values *)

(** The values [json.loads] produces, numbers being integers. *)
#[warnings="-register-all"]
Inductive json : Type :=
  | JNull
  | JBool (b : bool)
  | JInt (n : Z)
  | JStr (s : string)
  | JArr (l : list json)
  | JObj (d : list (string * json)).

(** Truth value of an object, as tested by [if x := ...:]. *)
Definition truthy (v : json) : bool :=
  match v with
  | JNull => false
  | JBool b => b
  | JInt n => negb (n =? 0)%Z
  | JStr s => negb (String.eqb s "")
  | JArr l => match l with [] => false | _ => true end
  | JObj d => match d with [] => false | _ => true end
  end.

(** A [dict]: keys are unique and kept in insertion order. *)
Abbreviation pydict V := (list (string * V)).

Fixpoint dict_get {V} (k : string) (d : pydict V) : option V :=
  match d with
  | [] => None
  | (k', v) :: d' => if decide (k = k') then Some v else dict_get k d'
  end.

(** [d[k] = v]: an existing key keeps its position, a new key goes last. *)
Fixpoint dict_set {V} (k : string) (v : V) (d : pydict V) : pydict V :=
  match d with
  | [] => [(k, v)]
  | (k', v') :: d' =>
      if decide (k = k') then (k, v) :: d' else (k', v') :: dict_set k v d'
  end.

Definition dict_keys {V} (d : pydict V) : list string := d.*1.

(** [v[k]] for a value [v]: only a dict can be subscripted by a string. *)
Definition subscript (v : json) (k : string) : option json :=
  match v with
  | JObj d => dict_get k d
  | _ => None
  end.

(** [v[k] = x] for a value [v]. *)
Definition store (v : json) (k : string) (x : json) : option json :=
  match v with
  | JObj d => Some (JObj (dict_set k x d))
  | _ => None
  end.

(** A [set] of strings, kept as the sequence of distinct elements in the
    order they were added. *)
Abbreviation pyset := (list string).

Definition set_add (x : string) (s : pyset) : pyset :=
  if decide (x ∈ s) then s else s ++ [x].

(** Iterating over a [set] visits its elements in an order that depends on
    the hash seed of the process; all that is known is that it enumerates
    the elements. *)
Record SetOrder : Type := {
  enum : pyset → list string;
  enum_perm : ∀ s, enum s ≡ₚ s
}.

Definition insertion_order : SetOrder :=
  {| enum := λ s, s; enum_perm := λ s, reflexivity s |}.

(** [d[k].add(x)] for [d = defaultdict(set)]. *)
Definition dd_add (k x : string) (d : pydict pyset) : pydict pyset :=
  match dict_get k d with
  | Some s => dict_set k (set_add x s) d
  | None => dict_set k (set_add x []) d
  end.

(** ** pathlib *)

(** [s.split(c)]. *)
Fixpoint split (c : ascii) (s : string) : list string :=
  match s with
  | EmptyString => [EmptyString]
  | String a s' =>
      if Ascii.eqb a c then EmptyString :: split c s'
      else match split c s' with
           | [] => [String a EmptyString]
           | x :: xs => String a x :: xs
           end
  end.

(** [c.join(l)]. *)
Definition join (c : string) (l : list string) : string := String.concat c l.

Fixpoint lstrip (c : ascii) (s : string) : string :=
  match s with
  | String a s' => if Ascii.eqb a c then lstrip c s' else s
  | EmptyString => EmptyString
  end.

(** A parsed [PurePosixPath]: the root ([""], ["/"] or ["//"]) and the
    components after it.  Python keeps the root as first element of
    [_parts]; here it is a field of its own. *)
Record PurePath : Type := {
  root : string;
  tail : list string
}.

(** [_PosixFlavour.splitroot]: exactly two leading slashes are kept apart. *)
Definition splitroot (part : string) : string * string :=
  match part with
  | String a _ =>
      if Ascii.eqb a "/" then
        let stripped := lstrip "/" part in
        if (String.length part - String.length stripped =? 2)%nat
        then ("//", stripped) else ("/", stripped)
      else ("", part)
  | EmptyString => ("", part)
  end.

(** [Path(name)]: empty and ["."] components are dropped. *)
Definition Path (name : string) : PurePath :=
  let '(r, rel) := splitroot name in
  {| root := r;
     tail := filter (λ x, x ≠ "" ∧ x ≠ ".") (split "/" rel) |}.

(** [p.parents]: entry [i] keeps all but the last [i + 1] components. *)
Definition parents (p : PurePath) : list PurePath :=
  let n := length (tail p) in
  (λ i, {| root := root p; tail := take (n - S i) (tail p) |}) <$> seq 0 n.

(** [p.as_posix()], that is [str(p)]. *)
Definition as_posix (p : PurePath) : string :=
  if decide (root p = "") then
    let s := join "/" (tail p) in
    if decide (s = "") then "." else s
  else root p +:+ join "/" (tail p).

(** The slice [l[:-1]]. *)
Definition drop_last {A} (l : list A) : list A := take (length l - 1) l.

(** The groups of one VM name, line 55:
    [[p.as_posix() for p in Path(name).parents][:-1]]. *)
Definition name_groups (name : string) : list string :=
  drop_last (as_posix <$> parents (Path name)).


(** ** ipaddress *)

Local Open Scope Z_scope.

Definition char_in (c : ascii) (s : string) : bool :=
  existsb (Ascii.eqb c) (list_ascii_of_string s).

Definition is_digit (c : ascii) : bool :=
  let n := nat_of_ascii c in (48 <=? n)%nat && (n <=? 57)%nat.

Definition is_hexdigit (c : ascii) : bool :=
  let n := nat_of_ascii c in
  is_digit c || ((97 <=? n)%nat && (n <=? 102)%nat)
             || ((65 <=? n)%nat && (n <=? 70)%nat).

Definition hex_value (c : ascii) : Z :=
  let n := Z.of_nat (nat_of_ascii c) in
  if is_digit c then n - 48
  else if (97 <=? n) then n - 87 else n - 55.

(** [s.isascii() and s.isdigit()]. *)
Definition isdigit (s : string) : bool :=
  negb (String.eqb s "") && forallb is_digit (list_ascii_of_string s).

(** [int(s, base)] on a string of digits of that base. *)
Definition int_of (base : Z) (s : string) : Z :=
  foldl (λ acc c, base * acc + hex_value c) 0 (list_ascii_of_string s).

(** [str(n)] and ['%x' % n] for [0 <= n]. *)
Definition str_int (n : Z) : string :=
  DecimalString.NilEmpty.string_of_uint (N.to_uint (Z.to_N n)).

Definition hex_int (n : Z) : string :=
  HexadecimalString.NilEmpty.string_of_uint (N.to_hex_uint (Z.to_N n)).

(** [IPv4Address._parse_octet] (leading zeros are refused). *)
Definition parse_octet (s : string) : option Z :=
  if String.eqb s "" then None
  else if negb (isdigit s) then None
  else if (3 <? String.length s)%nat then None
  else if negb (String.eqb s "0") && String.prefix "0" s then None
  else let n := int_of 10 s in
       if 255 <? n then None else Some n.

(** [int.from_bytes(l, 'big')] and, for hextets, the shifts of
    [_ip_int_from_string]. *)
Definition from_digits (width : Z) (l : list Z) : Z :=
  foldl (λ acc d, Z.lor (Z.shiftl acc width) d) 0 l.

(** [IPv4Address._ip_int_from_string]. *)
Definition v4_int_from_string (s : string) : option Z :=
  if String.eqb s "" then None
  else let octets := split "." s in
       if negb (length octets =? 4)%nat then None
       else from_digits 8 <$> mapM parse_octet octets.

(** [IPv4Address(s)] for a string. *)
Definition v4_address (s : string) : option Z :=
  if char_in "/" s then None else v4_int_from_string s.

(** [_prefix_from_prefix_string]. *)
Definition prefix_from_prefix_string (max_prefixlen : Z) (s : string) : option Z :=
  if negb (isdigit s) then None
  else let n := int_of 10 s in
       if (0 <=? n) && (n <=? max_prefixlen) then Some n else None.

Definition bit_length (n : Z) : Z := if n =? 0 then 0 else Z.log2 n + 1.

Definition count_righthand_zero_bits (number bits : Z) : Z :=
  if number =? 0 then bits
  else Z.min bits (bit_length (Z.land (Z.lnot number) (number - 1))).

(** [_prefix_from_ip_int]: the mask must be ones followed by zeroes. *)
Definition prefix_from_ip_int (max_prefixlen ip_int : Z) : option Z :=
  let trailing_zeroes := count_righthand_zero_bits ip_int max_prefixlen in
  let prefixlen := max_prefixlen - trailing_zeroes in
  let leading_ones := Z.shiftr ip_int trailing_zeroes in
  let all_ones := Z.shiftl 1 prefixlen - 1 in
  if leading_ones =? all_ones then Some prefixlen else None.

(** [_prefix_from_ip_string]: a netmask or a hostmask in dotted form. *)
Definition prefix_from_ip_string (s : string) : option Z :=
  ip_int ← v4_int_from_string s;
  match prefix_from_ip_int 32 ip_int with
  | Some p => Some p
  | None => prefix_from_ip_int 32 (Z.lxor ip_int 4294967295)
  end.

(** [IPv4Network._make_netmask] on the text after the slash. *)
Definition v4_make_netmask (s : string) : option Z :=
  match prefix_from_prefix_string 32 s with
  | Some p => Some p
  | None => prefix_from_ip_string s
  end.

(** [_split_optional_netmask]: at most one slash. *)
Definition split_optional_netmask (s : string) : option (string * option string) :=
  match split "/" s with
  | [addr] => Some (addr, None)
  | [addr; mask] => Some (addr, Some mask)
  | _ => None
  end.

(** [IPv4Interface(s)._ip] for a string. *)
Definition v4_interface (s : string) : option Z :=
  '(addr, mask) ← split_optional_netmask s;
  ip ← v4_address addr;
  _ ← from_option v4_make_netmask (Some 32) mask;
  Some ip.

(** [str(IPv4Address(n))]. *)
Definition v4_str (n : Z) : string :=
  join "." (str_int <$> [Z.land (Z.shiftr n 24) 255; Z.land (Z.shiftr n 16) 255;
                          Z.land (Z.shiftr n 8) 255; Z.land n 255]).

(** [IPv6Address._parse_hextet]. *)
Definition parse_hextet (s : string) : option Z :=
  if negb (forallb is_hexdigit (list_ascii_of_string s)) then None
  else if (4 <? String.length s)%nat then None
  else if String.eqb s "" then None
  else Some (int_of 16 s).

(** The loop of [_ip_int_from_string] that looks for the one ["::"]: the
    indices [1 .. len - 2] whose part is empty. *)
Definition skip_indices (parts : list string) : list nat :=
  filter (λ i, parts !! i = Some "") (seq 1 (length parts - 2)).

(** The last part written as an IPv4 address is replaced by two hextets. *)
Definition expand_v4_suffix (parts : list string) : option (list string) :=
  match last parts with
  | Some l =>
      if char_in "." l then
        ipv4_int ← v4_address l;
        Some (drop_last parts ++
              [hex_int (Z.land (Z.shiftr ipv4_int 16) 65535);
               hex_int (Z.land ipv4_int 65535)])
      else Some parts
  | None => Some parts
  end.

(** [IPv6Address._ip_int_from_string]. *)
Definition v6_int_from_string (s : string) : option Z :=
  if String.eqb s "" then None
  else
    let parts := split ":" s in
    if (length parts <? 3)%nat then None
    else
      parts ← expand_v4_suffix parts;
      let n := length parts in
      if (9 <? n)%nat then None
      else
        let first_empty := bool_decide (head parts = Some "") in
        let last_empty := bool_decide (last parts = Some "") in
        '(parts_hi, parts_lo, parts_skipped) ←
          match skip_indices parts with
          | [] =>
              if negb (n =? 8)%nat || first_empty || last_empty then None
              else Some (n, 0%nat, 0%nat)
          | [skip_index] =>
              let hi := skip_index in
              let lo := (n - skip_index - 1)%nat in
              if first_empty && negb (hi - 1 =? 0)%nat then None
              else if last_empty && negb (lo - 1 =? 0)%nat then None
              else
                let hi := if first_empty then (hi - 1)%nat else hi in
                let lo := if last_empty then (lo - 1)%nat else lo in
                if (8 - (hi + lo) <? 1)%nat then None
                else Some (hi, lo, (8 - (hi + lo))%nat)
          | _ => None
          end;
        hi ← mapM parse_hextet (take parts_hi parts);
        lo ← mapM parse_hextet (drop (n - parts_lo) parts);
        Some (foldl (λ acc d, Z.lor (Z.shiftl acc 16) d)
                (Z.shiftl (from_digits 16 hi) (16 * Z.of_nat parts_skipped)) lo).

(** [IPv6Address._split_scope_id], keeping the address part. *)
Definition split_scope_id (s : string) : option string :=
  match split "%" s with
  | [addr] => Some addr
  | [addr; scope_id] => if String.eqb scope_id "" then None else Some addr
  | _ => None
  end.

(** [IPv6Address(s)] for a string. *)
Definition v6_address (s : string) : option Z :=
  if char_in "/" s then None
  else addr ← split_scope_id s; v6_int_from_string addr.

(** [IPv6Interface(s)._ip] for a string. *)
Definition v6_interface (s : string) : option Z :=
  '(addr, mask) ← split_optional_netmask s;
  ip ← v6_address addr;
  _ ← from_option (prefix_from_prefix_string 128) (Some 128) mask;
  Some ip.

(** One turn of the scanning loop of [_compress_hextets], on the state
    [(best_doublecolon_start, best_doublecolon_len, doublecolon_start,
    doublecolon_len, index)]. *)
Definition scan_hextet (st : Z * Z * Z * Z * Z) (hextet : string) : Z * Z * Z * Z * Z :=
  let '(best_start, best_len, start, len, index) := st in
  if String.eqb hextet "0" then
    let len := len + 1 in
    let start := if start =? -1 then index else start in
    if best_len <? len
    then (start, len, start, len, index + 1)
    else (best_start, best_len, start, len, index + 1)
  else (best_start, best_len, -1, 0, index + 1).

(** The scan of [_compress_hextets]: start and length of the first longest
    run of ["0"] hextets. *)
Definition best_doublecolon (hextets : list string) : Z * Z :=
  let '(best_start, best_len, _, _, _) :=
    foldl scan_hextet (-1, 0, -1, 0, 0) hextets in
  (best_start, best_len).

Definition compress_hextets (hextets : list string) : list string :=
  let '(best_start, best_len) := best_doublecolon hextets in
  if 1 <? best_len then
    let best_end := Z.to_nat (best_start + best_len) in
    let hextets := if (best_end =? length hextets)%nat
                   then hextets ++ [""] else hextets in
    let hextets := take (Z.to_nat best_start) hextets ++ [""] ++ drop best_end hextets in
    if best_start =? 0 then "" :: hextets else hextets
  else hextets.

(** [str(IPv6Address(n))] for an address without scope. *)
Definition v6_str (n : Z) : string :=
  join ":" (compress_hextets
    ((λ i, hex_int (Z.land (Z.shiftr n (16 * Z.of_nat (7 - i))) 65535)) <$> seq 0 8)).

(** [str(ipaddress.ip_interface(v).ip)]; [None] when the call raises. *)
Definition ip_interface_ip (v : json) : option string :=
  match v with
  | JStr s =>
      match v4_interface s with
      | Some ip => Some (v4_str ip)
      | None => v6_str <$> v6_interface s
      end
  | JInt n =>
      if (0 <=? n) && (n <? 2 ^ 32) then Some (v4_str n)
      else if (0 <=? n) && (n <? 2 ^ 128) then Some (v6_str n)
      else None
  | JBool b => Some (v4_str (if b then 1 else 0))
  | JNull | JArr _ | JObj _ => None
  end.

Local Close Scope Z_scope.

(** ** The inventory builder *)

(** One record of [vml show --format-json]: its name and its other
    entries, read with [vm.get]. *)
Record VM : Type := {
  vm_name : string;
  vm_fields : gmap string json
}.

(** [for x in l: st = body(st, x)], where the body may raise. *)
Fixpoint for_each {A S} (body : S → A → option S) (l : list A) (st : S) : option S :=
  match l with
  | [] => Some st
  | x :: l' => st' ← body st x; for_each body l' st'
  end.

(** The state of an [InventoryBuilder] instance. *)
Record InventoryBuilder : Type := {
  vms : list VM;
  names : list string;
  inventory : pydict json
}.

(** [__init__], lines 20-28, given the records read from [vml]. *)
Definition init (records : list VM) : InventoryBuilder :=
  let names := vm_name <$> records in
  {| vms := records;
     names := names;
     inventory :=
       [("all", JObj [("hosts", JArr (JStr <$> names));
                      ("vars", JObj [("ansible_python_interpreter",
                                      JStr "/usr/bin/python3")])]);
        ("_meta", JObj [("hostvars", JObj [])])] |}.

(** [if x := vm.get(k)]: the value when the entry is there and truthy. *)
Definition get_truthy (vm : VM) (k : string) : option json :=
  match vm_fields vm !! k with
  | Some v => if truthy v then Some v else None
  | None => None
  end.

(** [host_vars[k] = x] under [if x := vm.get(field)]. *)
Definition pass_through (vm : VM) (field k : string) (host_vars : pydict json)
  : pydict json :=
  match get_truthy vm field with
  | Some x => dict_set k x host_vars
  | None => host_vars
  end.

(** The [host_vars] of one record, lines 32-47; [None] when
    [ip_interface] raises. *)
Definition host_vars_of (vm : VM) : option (pydict json) :=
  let host_vars := [] in
  let host_vars := pass_through vm "ssh_host" "ansible_host" host_vars in
  let host_vars := pass_through vm "ssh_port" "ansible_port" host_vars in
  let host_vars := pass_through vm "ssh_user" "ansible_user" host_vars in
  let host_vars := pass_through vm "ssh_key" "ansible_ssh_private_key_file" host_vars in
  let host_vars := pass_through vm "ssh_options" "ansible_ssh_common_args" host_vars in
  match get_truthy vm "network_address" with
  | Some cidr =>
      let host_vars := dict_set "network_cidr" cidr host_vars in
      address ← ip_interface_ip cidr;
      Some (dict_set "network_address" (JStr address) host_vars)
  | None => Some host_vars
  end.

(** The body of the loop of [hostvars], lines 32-50. *)
Definition hostvars_body (inv : pydict json) (vm : VM) : option (pydict json) :=
  host_vars ← host_vars_of vm;
  match host_vars with
  | [] => Some inv
  | _ =>
      meta ← dict_get "_meta" inv;
      table ← subscript meta "hostvars";
      table ← store table (vm_name vm) (JObj host_vars);
      meta ← store meta "hostvars" table;
      Some (dict_set "_meta" meta inv)
  end.

Definition hostvars (self : InventoryBuilder) : option InventoryBuilder :=
  inv ← for_each hostvars_body (vms self) (inventory self);
  Some {| vms := vms self; names := names self; inventory := inv |}.

(** The [groups] dictionary after the loop of lines 53-56. *)
Definition group_map (ns : list string) : pydict pyset :=
  foldl
    (λ groups name,
       foldl (λ groups group, dd_add group name groups) groups (name_groups name))
    [] ns.

(** The entry written for one group, line 61: [{"hosts": list(hosts)}]. *)
Definition group_entry (o : SetOrder) (hosts : pyset) : json :=
  JObj [("hosts", JArr (JStr <$> enum o hosts))].

(** The body of the loop of lines 60-61. *)
Definition write_group (o : SetOrder) (inv : pydict json) (p : string * pyset)
  : pydict json :=
  let '(group, hosts) := p in dict_set group (group_entry o hosts) inv.

(** Lines 58-61. *)
Definition emit_groups (o : SetOrder) (groups : pydict pyset) (inv : pydict json)
  : option (pydict json) :=
  match groups with
  | [] => Some inv
  | _ =>
      all ← dict_get "all" inv;
      all ← store all "children" (JArr (JStr <$> dict_keys groups));
      let inv := dict_set "all" all inv in
      Some (foldl (write_group o) inv groups)
  end.

Definition groups (o : SetOrder) (self : InventoryBuilder) : option InventoryBuilder :=
  inv ← emit_groups o (group_map (names self)) (inventory self);
  Some {| vms := vms self; names := names self; inventory := inv |}.

(** [main]: the printed document, or [None] when the run raises. *)
Definition main (o : SetOrder) (records : list VM) : option (pydict json) :=
  let ib := init records in
  ib ← hostvars ib;
  ib ← groups o ib;
  Some (inventory ib).

(** The two stages in the other order. *)
Definition main_groups_first (o : SetOrder) (records : list VM) : option (pydict json) :=
  let ib := init records in
  ib ← groups o ib;
  ib ← hostvars ib;
  Some (inventory ib).

Definition vm (name : string) (fields : list (string * json)) : VM :=
  {| vm_name := name; vm_fields := list_to_map fields |}.

(** ** Notions used by the statements *)

(** In the words of the specification: the slash-separated segments of a
    name. *)
Definition segments (name : string) : list string := split "/" name.

(** In the words of the specification: for a name of [k] segments, the
    [k - 1] prefixes formed by segments [1..i], for [i] in [1..k - 1]. *)
Definition ancestor_prefixes (name : string) : list string :=
  (λ i, join "/" (take i (segments name))) <$> seq 1 (length (segments name) - 1).

(** A name written as a relative path in normal form: no empty segment
    (so no leading, trailing or doubled slash) and no ["."] segment. *)
Definition plain_name (name : string) : Prop :=
  Forall (λ x, x ≠ "" ∧ x ≠ ".") (segments name).

(** The optional entries of a record and the variables each one yields. *)
Definition field_vars : list (string * list string) :=
  [("ssh_host", ["ansible_host"]);
   ("ssh_port", ["ansible_port"]);
   ("ssh_user", ["ansible_user"]);
   ("ssh_key", ["ansible_ssh_private_key_file"]);
   ("ssh_options", ["ansible_ssh_common_args"]);
   ("network_address", ["network_cidr"; "network_address"])].

Definition optional_fields : list string := field_vars.*1.

(** The additions [groups[group].add(name)] in the order the two loops of
    lines 54-56 perform them. *)
Definition group_pairs (ns : list string) : list (string * string) :=
  ns ≫= λ name, (λ group, (group, name)) <$> name_groups name.

Definition add_pair (gm : pydict pyset) (p : string * string) : pydict pyset :=
  dd_add p.1 p.2 gm.

(** What the scan of [_compress_hextets] maintains, after [index] hextets:
    a run, when there is one, lies within the hextets seen so far. *)
Definition run_ok (start len index : Z) : Prop :=
  ((len = 0 ∧ start = -1) ∨ (1 ≤ len ∧ 0 ≤ start ∧ start + len ≤ index))%Z.

(** What holds of [groups] all along: distinct keys, and every member set
    non-empty and without repetition. *)
Definition wf_groups (gm : pydict pyset) : Prop :=
  NoDup (dict_keys gm) ∧
  ∀ g hosts, dict_get g gm = Some hosts → hosts ≠ [] ∧ NoDup hosts.

(** The [host_vars] of a record written out: one entry per truthy field, in
    the order of the assignments; [address] is the parsed address, if any. *)
Definition entry (k : string) (x : option json) : pydict json :=
  match x with
  | Some v => [(k, v)]
  | None => []
  end.

Definition host_vars_list (r : VM) (address : option json) : pydict json :=
  entry "ansible_host" (get_truthy r "ssh_host") ++
  entry "ansible_port" (get_truthy r "ssh_port") ++
  entry "ansible_user" (get_truthy r "ssh_user") ++
  entry "ansible_ssh_private_key_file" (get_truthy r "ssh_key") ++
  entry "ansible_ssh_common_args" (get_truthy r "ssh_options") ++
  entry "network_cidr" (get_truthy r "network_address") ++
  entry "network_address" address.

(** The shape [hostvars] relies on: [inv["_meta"]["hostvars"]] is a dict. *)
Definition has_hostvars (inv : pydict json) : Prop :=
  ∃ meta table,
    dict_get "_meta" inv = Some (JObj meta) ∧
    dict_get "hostvars" meta = Some (JObj table).

(** A record with one entry removed. *)
Definition without (field : string) (r : VM) : VM :=
  {| vm_name := vm_name r; vm_fields := delete field (vm_fields r) |}.

(** Two entries of a document agree up to the order of a list of hosts:
    they are equal, or both are [{"hosts": l}] with the same members. *)
Definition entry_equiv (v1 v2 : json) : Prop :=
  v1 = v2 ∨
  ∃ l1 l2, v1 = JObj [("hosts", JArr l1)] ∧ v2 = JObj [("hosts", JArr l2)] ∧ l1 ≡ₚ l2.

(** Two documents agree up to the order of the lists of hosts: the same
    keys in the same order, with entries that agree. *)
Definition doc_equiv (d1 d2 : pydict json) : Prop :=
  Forall2 (λ x y, x.1 = y.1 ∧ entry_equiv x.2 y.2) d1 d2.

(** [doc[k1][k2]...]: [None] when a key is missing on the way. *)
Definition at_path (doc : pydict json) (path : list string) : option json :=
  foldl (λ v k, v ← v; subscript v k) (Some (JObj doc)) path.

(** The number of occurrences of a character in a string. *)
Fixpoint count_char (c : ascii) (s : string) : nat :=
  match s with
  | EmptyString => 0
  | String a s' => (if Ascii.eqb a c then 1 else 0) + count_char c s'
  end.

(** ** The model at work *)

Example name_groups_examples :
  name_groups <$> ["team/project/web1"; "solo"; ""; "a//b/./c/"; "./a"; "a/";
                   "/a/b"; "//a/b"; "///a/b"; "a/../b"] =
  [["team/project"; "team"]; []; []; ["a/b"; "a"]; []; [];
   ["/a"]; ["//a"]; ["/a"]; ["a/.."; "a"]].
Proof. by vm_compute. Qed.

Example ip_interface_ip_examples :
  ip_interface_ip <$>
    [JStr "10.0.0.5/24"; JStr "10.0.0.5"; JStr "192.168.1.77/255.255.255.0";
     JStr "2001:db8::5/64"; JStr "::ffff:1.2.3.4"; JStr "fe80::1%eth0/64";
     JStr "10.0.0.05/8"; JStr "10.0.0.5/33"; JStr "10.0.0.5/24/1"; JStr "web1";
     JInt 5; JInt (-1); JArr [JStr "10.0.0.5/24"]] =
  [Some "10.0.0.5"; Some "10.0.0.5"; Some "192.168.1.77";
   Some "2001:db8::5"; Some "::ffff:102:304"; Some "fe80::1";
   None; None; None; None;
   Some "0.0.0.5"; None; None].
Proof. by vm_compute. Qed.

Example main_example :
  main insertion_order
    [vm "team/project/web1" [("ssh_host", JStr "192.168.0.7"); ("ssh_port", JInt 22);
                             ("network_address", JStr "10.0.0.5/24")];
     vm "team/db" [("ssh_user", JStr "")];
     vm "solo" []] =
  Some [("all", JObj [("hosts", JArr [JStr "team/project/web1"; JStr "team/db";
                                      JStr "solo"]);
                      ("vars", JObj [("ansible_python_interpreter",
                                      JStr "/usr/bin/python3")]);
                      ("children", JArr [JStr "team/project"; JStr "team"])]);
        ("_meta", JObj [("hostvars", JObj [("team/project/web1",
           JObj [("ansible_host", JStr "192.168.0.7"); ("ansible_port", JInt 22);
                 ("network_cidr", JStr "10.0.0.5/24");
                 ("network_address", JStr "10.0.0.5")])])]);
        ("team/project", JObj [("hosts", JArr [JStr "team/project/web1"])]);
        ("team", JObj [("hosts", JArr [JStr "team/project/web1"; JStr "team/db"])])].
Proof. by vm_compute. Qed.

(** ** Dictionaries *)

Section dict.
Context {V : Type}.
Implicit Types (d : pydict V) (k : string) (v : V).

Lemma dict_get_set_eq k v d : dict_get k (dict_set k v d) = Some v.
Proof.
  induction d as [|[k' v'] d IH]; simpl; repeat case_decide; simpl;
    repeat case_decide; congruence.
Qed.

Lemma dict_get_set_ne k k' v d :
  k ≠ k' → dict_get k' (dict_set k v d) = dict_get k' d.
Proof.
  intros Hne. induction d as [|[k0 v0] d IH]; simpl; repeat case_decide; simpl;
    repeat case_decide; congruence.
Qed.

Lemma dict_get_Some_keys k v d : dict_get k d = Some v → k ∈ dict_keys d.
Proof.
  induction d as [|[k' v'] d IH]; simpl; [done|].
  case_decide; subst; intros; [left | right; auto].
Qed.

Lemma dict_get_None_keys k d : dict_get k d = None ↔ k ∉ dict_keys d.
Proof.
  induction d as [|[k' v'] d IH]; simpl.
  - split; [intros _; apply not_elem_of_nil | done].
  - rewrite not_elem_of_cons. case_decide; subst; [|tauto].
    split; [done | intros [? _]; done].
Qed.

Lemma dict_keys_set k v d :
  dict_keys (dict_set k v d) =
  if decide (k ∈ dict_keys d) then dict_keys d else dict_keys d ++ [k].
Proof.
  unfold dict_keys. induction d as [|[k' v'] d IH]; csimpl.
  - destruct (decide (k ∈ [])) as [H|H]; [by apply elem_of_nil in H | done].
  - destruct (decide (k = k')) as [->|Hne]; csimpl.
    + rewrite decide_True; [done | left].
    + rewrite IH. destruct (decide (k ∈ d.*1)) as [Hin|Hin].
      * rewrite decide_True; [done | by right].
      * rewrite decide_False; [done|]. rewrite elem_of_cons. tauto.
Qed.

Lemma dict_keys_set_NoDup k v d :
  NoDup (dict_keys d) → NoDup (dict_keys (dict_set k v d)).
Proof.
  intros Hd. rewrite dict_keys_set. case_decide; [done|].
  apply NoDup_app. split_and!; [done| |apply NoDup_singleton].
  intros x Hx Hk%list_elem_of_singleton. by subst.
Qed.

Lemma dict_keys_set_elem k k' v d :
  k' ∈ dict_keys (dict_set k v d) ↔ k' = k ∨ k' ∈ dict_keys d.
Proof.
  rewrite dict_keys_set. case_decide.
  - split; [auto | intros [->|?]; done].
  - rewrite elem_of_app, list_elem_of_singleton. tauto.
Qed.

(** Two assignments to different keys can be swapped when the first key
    is already in the dictionary (otherwise the insertion order differs). *)
Lemma dict_set_comm k1 k2 v1 v2 d :
  k1 ≠ k2 → k1 ∈ dict_keys d →
  dict_set k1 v1 (dict_set k2 v2 d) = dict_set k2 v2 (dict_set k1 v1 d).
Proof.
  intros Hne. induction d as [|[k' v'] d IH]; simpl.
  - intros H; by apply elem_of_nil in H.
  - intros Hin. destruct (decide (k1 = k')) as [->|H1], (decide (k2 = k')) as [->|H2];
      simpl; repeat case_decide; try congruence.
    f_equal. apply IH. unfold dict_keys in Hin. csimpl in Hin.
    apply elem_of_cons in Hin as [?|?]; [congruence | done].
Qed.
End dict.

(** ** Path names and their groups *)

Lemma split_cons c s : ∃ x xs, split c s = x :: xs.
Proof. destruct s as [|a s]; simpl; [eauto|]. destruct (Ascii.eqb a c), (split c s); eauto. Qed.

Lemma char_in_cons c a s : char_in c (String a s) = Ascii.eqb a c || char_in c s.
Proof. unfold char_in. simpl. by rewrite Ascii.eqb_sym. Qed.

Lemma split_no_sep c s : char_in c s = false → split c s = [s].
Proof.
  induction s as [|a s IH]; [done|]. rewrite char_in_cons. simpl.
  destruct (Ascii.eqb a c); simpl; [done|].
  intros H. by rewrite (IH H).
Qed.

Lemma join_cons_nonempty sep x l : x ≠ "" → join sep (x :: l) ≠ "".
Proof. intros Hx. destruct x; [done|]. destruct l; simpl; discriminate. Qed.

Lemma filter_Forall_id {A} (P : A → Prop) `{!∀ x, Decision (P x)} (l : list A) :
  Forall P l → filter P l = l.
Proof.
  induction 1 as [|x l Hx _ IH]; [done|]. rewrite filter_cons_True by done. by rewrite IH.
Qed.

Lemma drop_last_fmap_seq {A} (f : nat → A) n :
  drop_last (f <$> seq 0 n) = f <$> seq 0 (n - 1).
Proof.
  unfold drop_last. rewrite length_fmap, length_seq, <- fmap_take, take_seq.
  do 2 f_equal. lia.
Qed.

Lemma plain_name_splitroot name : plain_name name → splitroot name = ("", name).
Proof.
  unfold plain_name, segments, splitroot. destruct name as [|a s]; [done|].
  destruct (Ascii.eqb a "/") eqn:Ha; [|done].
  simpl. rewrite Ha. intros [[] _]%Forall_cons. done.
Qed.

Lemma Path_plain name :
  plain_name name → Path name = {| root := ""; tail := segments name |}.
Proof.
  intros Hp. unfold Path. rewrite plain_name_splitroot by done.
  f_equal. by apply filter_Forall_id.
Qed.

(** The groups of a name in normal form are the proper prefixes of its
    segments, the longest first. *)
Lemma name_groups_plain name :
  plain_name name → name_groups name = reverse (ancestor_prefixes name).
Proof.
  intros Hp. unfold name_groups, parents, ancestor_prefixes.
  rewrite Path_plain by done. simpl.
  set (segs := segments name) in *.
  rewrite <- list_fmap_compose, drop_last_fmap_seq.
  destruct (split_cons "/" name) as (x & xs & Hsegs). fold (segments name) in Hsegs.
  fold segs in Hsegs. unfold plain_name in Hp. fold segs in Hp.
  apply list_eq. intros i. rewrite list_lookup_fmap.
  destruct (decide (i < length segs - 1)) as [Hi|Hi].
  - rewrite reverse_lookup by (rewrite length_fmap, length_seq; lia).
    rewrite length_fmap, length_seq, list_lookup_fmap.
    rewrite !lookup_seq_lt by lia. simpl. f_equal.
    replace (S (length segs - 1 - S i)) with (length segs - S i) by lia.
    unfold as_posix. simpl. rewrite decide_False; [done|].
    rewrite Hsegs in *. simpl in Hi.
    replace (length (x :: xs) - S i) with (S (length xs - S i)) by (simpl; lia).
    simpl. apply Forall_cons in Hp as [[Hx _] _].
    by apply (join_cons_nonempty "/" x).
  - rewrite lookup_seq_ge by lia. simpl. symmetry. apply lookup_ge_None.
    rewrite length_reverse, length_fmap, length_seq. lia.
Qed.

(** A name without a slash has no group, whatever its form. *)
Lemma name_groups_no_slash name : char_in "/" name = false → name_groups name = [].
Proof.
  intros Hno. unfold name_groups, parents, Path.
  assert (splitroot name = ("", name)) as ->.
  { unfold splitroot. destruct name as [|a s]; [done|].
    rewrite char_in_cons in Hno. by destruct (Ascii.eqb a "/"). }
  rewrite split_no_sep by done. simpl.
  rewrite <- list_fmap_compose, drop_last_fmap_seq.
  rewrite filter_cons. case_decide; simpl; done.
Qed.

(** ** The group map *)

Lemma set_add_elem x n (s : pyset) : x ∈ set_add n s ↔ x = n ∨ x ∈ s.
Proof.
  unfold set_add. case_decide.
  - split; [auto | intros [->|?]; done].
  - rewrite elem_of_app, list_elem_of_singleton. tauto.
Qed.

Lemma set_add_NoDup n (s : pyset) : NoDup s → NoDup (set_add n s).
Proof.
  intros Hs. unfold set_add. case_decide; [done|].
  apply NoDup_app. split_and!; [done| |apply NoDup_singleton].
  intros x Hx Hn%list_elem_of_singleton. by subst.
Qed.

Lemma set_add_nonempty n (s : pyset) : set_add n s ≠ [].
Proof.
  unfold set_add. case_decide as H; [|by destruct s].
  intros ->. by apply elem_of_nil in H.
Qed.

Lemma dd_add_get g n gm g' :
  dict_get g' (dd_add g n gm) =
  if decide (g = g') then Some (set_add n (default [] (dict_get g gm)))
  else dict_get g' gm.
Proof.
  unfold dd_add. case_decide as Hg.
  - subst. destruct (dict_get g' gm); simpl; apply dict_get_set_eq.
  - destruct (dict_get g gm); by rewrite dict_get_set_ne.
Qed.

Lemma dd_add_keys g n gm g' :
  g' ∈ dict_keys (dd_add g n gm) ↔ g' = g ∨ g' ∈ dict_keys gm.
Proof. unfold dd_add. destruct (dict_get g gm); apply dict_keys_set_elem. Qed.

Lemma dd_add_wf g n gm : wf_groups gm → wf_groups (dd_add g n gm).
Proof.
  intros [Hk Hm]. split.
  - unfold dd_add. destruct (dict_get g gm); by apply dict_keys_set_NoDup.
  - intros g' hosts. rewrite dd_add_get. case_decide; [|apply Hm].
    intros [= <-]. split; [apply set_add_nonempty|].
    apply set_add_NoDup. destruct (dict_get g gm) as [s|] eqn:Hs; simpl.
    + by apply (Hm g s).
    + apply NoDup_nil_2.
Qed.

Lemma group_map_pairs ns : group_map ns = foldl add_pair [] (group_pairs ns).
Proof.
  unfold group_map, group_pairs. generalize (@nil (string * pyset)).
  induction ns as [|name ns IH]; intros gm; [done|]. csimpl.
  rewrite foldl_app, IH, foldl_fmap. done.
Qed.

Lemma fold_pairs_members ps gm g n :
  n ∈ default [] (dict_get g (foldl add_pair gm ps)) ↔
  n ∈ default [] (dict_get g gm) ∨ (g, n) ∈ ps.
Proof.
  revert gm. induction ps as [|[g' n'] ps IH]; intros gm; simpl.
  - rewrite elem_of_nil. tauto.
  - rewrite IH, elem_of_cons. unfold add_pair. simpl. rewrite dd_add_get.
    case_decide as Hg; simpl.
    + subst. rewrite set_add_elem. split; [|intros [?|[[= ->]|?]]; auto].
      intros [[->|?]|?]; auto.
    + split; [intros [?|?]; auto|]. intros [?|[[= -> ->]|?]]; auto. done.
Qed.

Lemma fold_pairs_keys ps gm g :
  g ∈ dict_keys (foldl add_pair gm ps) ↔ g ∈ dict_keys gm ∨ ∃ n, (g, n) ∈ ps.
Proof.
  revert gm. induction ps as [|[g' n'] ps IH]; intros gm; simpl.
  - split; [auto | intros [?|[n Hn]]; [done | by apply elem_of_nil in Hn]].
  - rewrite IH. unfold add_pair. simpl. rewrite dd_add_keys. split.
    + intros [[->|?]|[n Hn]]; [right; exists n'; left | by left | right; exists n; by right].
    + intros [?|[n [[= -> ->]|Hn]%elem_of_cons]]; eauto.
Qed.

Lemma fold_pairs_wf ps gm : wf_groups gm → wf_groups (foldl add_pair gm ps).
Proof.
  revert gm. induction ps as [|[g n] ps IH]; intros gm Hgm; [done|].
  simpl. apply IH. by apply dd_add_wf.
Qed.
Lemma group_pairs_elem ns g n :
  (g, n) ∈ group_pairs ns ↔ n ∈ ns ∧ g ∈ name_groups n.
Proof.
  unfold group_pairs. rewrite list_elem_of_bind. split.
  - intros (name & Hin & Hname). apply list_elem_of_fmap in Hin as (g' & [= -> ->] & Hg). done.
  - intros [Hn Hg]. exists n. split; [|done]. apply list_elem_of_fmap. eauto.
Qed.

Lemma group_map_wf ns : wf_groups (group_map ns).
Proof.
  rewrite group_map_pairs. apply fold_pairs_wf. split; [apply NoDup_nil_2 | done].
Qed.

(** The groups are the ancestors of the names. *)
Lemma group_map_keys ns g :
  g ∈ dict_keys (group_map ns) ↔ ∃ n, n ∈ ns ∧ g ∈ name_groups n.
Proof.
  rewrite group_map_pairs, fold_pairs_keys. setoid_rewrite group_pairs_elem.
  split; [intros [H|?]; [by apply elem_of_nil in H | done] | auto].
Qed.

(** The members of a group are the names it is an ancestor of. *)
Lemma group_map_members ns g hosts n :
  dict_get g (group_map ns) = Some hosts →
  n ∈ hosts ↔ n ∈ ns ∧ g ∈ name_groups n.
Proof.
  intros Hg. rewrite <- group_pairs_elem.
  pose proof (fold_pairs_members (group_pairs ns) [] g n) as H.
  rewrite <- group_map_pairs, Hg in H. simpl in H. rewrite H, elem_of_nil. tauto.
Qed.

(** ** Addresses *)

Lemma join_two_nonempty sep x y l : sep ≠ "" → join sep (x :: y :: l) ≠ "".
Proof. intros Hsep. destruct x, sep; simpl; done. Qed.

Lemma join_long_nonempty sep (l : list string) :
  sep ≠ "" → (2 ≤ length l)%nat → join sep l ≠ "".
Proof.
  intros Hsep Hl. destruct l as [|x [|y l]]; simpl in Hl; [lia..|].
  by apply join_two_nonempty.
Qed.

Lemma v4_str_nonempty n : v4_str n ≠ "".
Proof. unfold v4_str. by apply join_two_nonempty. Qed.

Section doublecolon.
Local Open Scope Z_scope.

Lemma scan_run_ok hextets bs bl ds dl index :
  0 ≤ index → run_ok bs bl index → run_ok ds dl index →
  let '(bs', bl', _, _, index') := foldl scan_hextet (bs, bl, ds, dl, index) hextets in
  run_ok bs' bl' index' ∧ index' = index + Z.of_nat (length hextets).
Proof.
  revert bs bl ds dl index.
  induction hextets as [|h hextets IH]; intros bs bl ds dl index Hi Hb Hd.
  - simpl. split; [done | lia].
  - simpl.
    assert (∀ a b c d e, 0 ≤ e → run_ok a b e → run_ok c d e → e = index + 1 →
      let '(bs', bl', _, _, index') := foldl scan_hextet (a, b, c, d, e) hextets in
      run_ok bs' bl' index' ∧
      index' = index + Z.of_nat (length (h :: hextets))) as Hnext.
    { intros a b c d e He Ha Hc ->. specialize (IH a b c d (index + 1) He Ha Hc).
      destruct (foldl scan_hextet _ hextets) as [[[[? ?] ?] ?] ?]. destruct IH as [? ->].
      split; [done|]. simpl length. lia. }
    unfold run_ok in *.
    destruct (String.eqb h "0"); [|apply Hnext; lia].
    destruct (Z.eqb_spec ds (-1)), (Z.ltb_spec bl (dl + 1)); apply Hnext; lia.
Qed.

Lemma best_doublecolon_bounds hextets :
  let '(best_start, best_len) := best_doublecolon hextets in
  1 < best_len → 0 ≤ best_start ∧ best_start + best_len ≤ Z.of_nat (length hextets).
Proof.
  unfold best_doublecolon.
  pose proof (scan_run_ok hextets (-1) 0 (-1) 0 0) as H.
  destruct (foldl _ _ hextets) as [[[[bs bl] ?] ?] index].
  destruct H as [Hrun ->]; [lia | left; lia | left; lia |].
  intros Hbl. destruct Hrun; lia.
Qed.

Lemma compress_hextets_length hextets :
  (2 ≤ length hextets)%nat → (2 ≤ length (compress_hextets hextets))%nat.
Proof.
  intros Hlen. unfold compress_hextets.
  pose proof (best_doublecolon_bounds hextets) as H.
  destruct (best_doublecolon hextets) as [bs bl].
  destruct (Z.ltb_spec 1 bl) as [Hbl|]; [|done].
  destruct (H Hbl) as [Hbs Hend].
  set (hextets' := if (_ =? _)%nat then _ else _).
  assert (length hextets ≤ length hextets')%nat as Hlen'.
  { unfold hextets'. destruct (_ =? _)%nat; [rewrite length_app; simpl|]; lia. }
  destruct (Z.eqb_spec bs 0) as [->|Hne]; simpl.
  - lia.
  - rewrite length_app, length_take. simpl. lia.
Qed.
End doublecolon.

Lemma v6_str_nonempty n : v6_str n ≠ "".
Proof.
  unfold v6_str. apply join_long_nonempty; [done|].
  apply compress_hextets_length. rewrite length_fmap, length_seq. lia.
Qed.

(** The address returned is never the empty string. *)
Lemma ip_interface_ip_nonempty v a : ip_interface_ip v = Some a → a ≠ "".
Proof.
  destruct v as [|b|n|s|l|d]; simpl; try done.
  - intros [= <-]. apply v4_str_nonempty.
  - repeat case_match; intros [= <-]; auto using v4_str_nonempty, v6_str_nonempty.
  - destruct (v4_interface s); [intros [= <-]; apply v4_str_nonempty|].
    destruct (v6_interface s); simpl; [intros [= <-]; apply v6_str_nonempty | done].
Qed.

(** ** Host variables *)

Lemma get_truthy_Some r f v :
  get_truthy r f = Some v ↔ vm_fields r !! f = Some v ∧ truthy v = true.
Proof.
  unfold get_truthy. destruct (vm_fields r !! f) as [w|]; [|by split; [|intros []]].
  destruct (truthy w) eqn:Hw; split; try done.
  - by intros [= ->].
  - by intros [[= ->] _].
  - intros [[= ->] ?]. congruence.
Qed.

Lemma get_truthy_absent r f : vm_fields r !! f = None → get_truthy r f = None.
Proof. unfold get_truthy. by intros ->. Qed.

Lemma get_truthy_falsy r f v :
  vm_fields r !! f = Some v → truthy v = false → get_truthy r f = None.
Proof. unfold get_truthy. by intros -> ->. Qed.

Lemma get_truthy_without_eq f r : get_truthy (without f r) f = None.
Proof. unfold get_truthy, without. simpl. by rewrite lookup_delete_eq. Qed.

Lemma get_truthy_without_ne f f' r :
  f ≠ f' → get_truthy (without f r) f' = get_truthy r f'.
Proof. intros. unfold get_truthy, without. simpl. by rewrite lookup_delete_ne. Qed.

(** [host_vars] only depends on the truthy entries of the record. *)
Lemma host_vars_of_ext r1 r2 :
  (∀ f, get_truthy r1 f = get_truthy r2 f) → host_vars_of r1 = host_vars_of r2.
Proof. intros H. unfold host_vars_of, pass_through. by rewrite !H. Qed.

Lemma host_vars_of_eq r :
  host_vars_of r =
  match get_truthy r "network_address" with
  | Some cidr =>
      address ← ip_interface_ip cidr;
      Some (host_vars_list r (Some (JStr address)))
  | None => Some (host_vars_list r None)
  end.
Proof.
  unfold host_vars_of, host_vars_list, pass_through.
  destruct (get_truthy r "ssh_host"), (get_truthy r "ssh_port"),
    (get_truthy r "ssh_user"), (get_truthy r "ssh_key"),
    (get_truthy r "ssh_options"), (get_truthy r "network_address") as [cidr|];
    try reflexivity; destruct (ip_interface_ip cidr); reflexivity.
Qed.

Lemma host_vars_of_list r hv :
  host_vars_of r = Some hv →
  ∃ address, hv = host_vars_list r address ∧
    (get_truthy r "network_address" = None → address = None) ∧
    (∀ a, address = Some a → truthy a = true).
Proof.
  rewrite host_vars_of_eq. destruct (get_truthy r "network_address") as [cidr|].
  - destruct (ip_interface_ip cidr) as [a|] eqn:Ha; simpl; [|done].
    intros [= <-]. eexists. split_and!; [done..|].
    intros ? [= <-]. simpl. apply ip_interface_ip_nonempty in Ha.
    by destruct a.
  - intros [= <-]. exists None. done.
Qed.

Lemma entry_elem k x k' v : (k', v) ∈ entry k x ↔ k' = k ∧ x = Some v.
Proof.
  destruct x as [w|]; simpl.
  - rewrite list_elem_of_singleton. split; [by intros [= -> ->] | by intros [-> [= ->]]].
  - rewrite elem_of_nil. split; [done | by intros [_ ?]].
Qed.

Lemma dict_get_Some_elem {V} k (v : V) (d : pydict V) : dict_get k d = Some v → (k, v) ∈ d.
Proof.
  induction d as [|[k' v'] d IH]; simpl; [done|].
  case_decide; [intros [= ->]; subst; left | right; auto].
Qed.

Lemma host_vars_list_elem r address k v :
  (k, v) ∈ host_vars_list r address ↔
  (k = "ansible_host" ∧ get_truthy r "ssh_host" = Some v) ∨
  (k = "ansible_port" ∧ get_truthy r "ssh_port" = Some v) ∨
  (k = "ansible_user" ∧ get_truthy r "ssh_user" = Some v) ∨
  (k = "ansible_ssh_private_key_file" ∧ get_truthy r "ssh_key" = Some v) ∨
  (k = "ansible_ssh_common_args" ∧ get_truthy r "ssh_options" = Some v) ∨
  (k = "network_cidr" ∧ get_truthy r "network_address" = Some v) ∨
  (k = "network_address" ∧ address = Some v).
Proof. unfold host_vars_list. by rewrite !elem_of_app, !entry_elem. Qed.

(** A field that is absent or falsy leaves none of its variables. *)
Lemma host_vars_absent r hv f ks k :
  host_vars_of r = Some hv → (f, ks) ∈ field_vars → get_truthy r f = None →
  k ∈ ks → dict_get k hv = None.
Proof.
  intros (address & -> & Hna & _)%host_vars_of_list Hf Hnone Hk.
  destruct (dict_get k (host_vars_list r address)) as [v|] eqn:Hget; [|done].
  apply dict_get_Some_elem, host_vars_list_elem in Hget.
  unfold field_vars in Hf.
  repeat (apply elem_of_cons in Hf as [[= -> ->]|Hf]);
    [..|by apply elem_of_nil in Hf];
    repeat (apply elem_of_cons in Hk as [->|Hk]); try (by apply elem_of_nil in Hk);
    try rewrite (Hna Hnone) in Hget;
    destruct Hget as [[? ?]|[[? ?]|[[? ?]|[[? ?]|[[? ?]|[[? ?]|[? ?]]]]]]]; congruence.
Qed.

(** Every value stored is truthy: no [None], no empty string. *)
Lemma host_vars_truthy r hv k v :
  host_vars_of r = Some hv → dict_get k hv = Some v → truthy v = true.
Proof.
  intros (address & -> & _ & Haddr)%host_vars_of_list Hget.
  apply dict_get_Some_elem, host_vars_list_elem in Hget.
  destruct Hget as [[_ H]|[[_ H]|[[_ H]|[[_ H]|[[_ H]|[[_ H]|[_ H]]]]]]];
    try (by apply get_truthy_Some in H as [_ ?]). by apply Haddr.
Qed.

(** ** The two stages *)

Lemma for_each_None {A S} (body : S → A → option S) l x st :
  x ∈ l → (∀ st', body st' x = None) → for_each body l st = None.
Proof.
  intros Hx Hnone. revert st. induction l as [|y l IH]; intros st.
  - by apply elem_of_nil in Hx.
  - simpl. apply elem_of_cons in Hx as [<-|Hx]; [by rewrite Hnone|].
    destruct (body st y); simpl; auto.
Qed.

Lemma host_vars_of_None r :
  host_vars_of r = None ↔
  ∃ v, get_truthy r "network_address" = Some v ∧ ip_interface_ip v = None.
Proof.
  rewrite host_vars_of_eq. destruct (get_truthy r "network_address") as [cidr|].
  - destruct (ip_interface_ip cidr) eqn:Hip; simpl.
    + split; [done|]. intros (v & [= <-] & ?). congruence.
    + split; [eauto | done].
  - split; [done | by intros (v & ? & _)].
Qed.

(** One turn of the loop of [hostvars] on a well-shaped document: it only
    rewrites the entry ["_meta"], in place. *)
Lemma hostvars_body_Some inv r :
  has_hostvars inv → is_Some (host_vars_of r) →
  ∃ inv', hostvars_body inv r = Some inv' ∧ has_hostvars inv' ∧
          dict_keys inv' = dict_keys inv ∧
          ∀ k, k ≠ "_meta" → dict_get k inv' = dict_get k inv.
Proof.
  intros Hshape [hv Hhv]. unfold hostvars_body. rewrite Hhv. simpl.
  destruct hv as [|e hv]; [by exists inv|].
  destruct Hshape as (meta & table & Hmeta & Htable).
  rewrite Hmeta. simpl. rewrite Htable. simpl. eexists. split; [done|].
  split_and!.
  - do 2 eexists. rewrite dict_get_set_eq. split; [done|]. apply dict_get_set_eq.
  - rewrite dict_keys_set, decide_True; [done|]. by apply dict_get_Some_keys in Hmeta.
  - intros k Hk. by rewrite dict_get_set_ne.
Qed.

Lemma hostvars_loop_Some l inv :
  has_hostvars inv → (∀ r, r ∈ l → is_Some (host_vars_of r)) →
  ∃ inv', for_each hostvars_body l inv = Some inv' ∧ has_hostvars inv' ∧
          dict_keys inv' = dict_keys inv ∧
          ∀ k, k ≠ "_meta" → dict_get k inv' = dict_get k inv.
Proof.
  revert inv. induction l as [|r l IH]; intros inv Hshape Hok; [by exists inv|].
  destruct (hostvars_body_Some inv r) as (inv1 & Hbody & Hshape1 & Hkeys1 & Hframe1);
    [done | apply Hok; left |].
  destruct (IH inv1) as (inv' & Hloop & Hshape' & Hkeys' & Hframe');
    [done | intros; apply Hok; by right |].
  exists inv'. simpl. rewrite Hbody. simpl. split_and!; [done..| congruence |].
  intros k Hk. rewrite Hframe', Hframe1; done.
Qed.

Lemma init_has_hostvars records : has_hostvars (inventory (init records)).
Proof. by do 2 eexists. Qed.

Lemma main_unfold o records :
  main o records =
  for_each hostvars_body records (inventory (init records)) ≫=
  emit_groups o (group_map (vm_name <$> records)).
Proof.
  unfold main, hostvars, groups. simpl.
  destruct (for_each _ _ _) as [inv|]; simpl; [|done].
  by destruct (emit_groups _ _ _).
Qed.

Lemma emit_groups_nil o inv : emit_groups o [] inv = Some inv.
Proof. done. Qed.

Lemma emit_groups_is_Some o gm inv all :
  dict_get "all" inv = Some (JObj all) → is_Some (emit_groups o gm inv).
Proof. intros Hall. unfold emit_groups. destruct gm; [done|]. rewrite Hall. by eexists. Qed.

(** The run fails exactly when the address of some record cannot be parsed. *)
Lemma main_None o records :
  main o records = None ↔ ∃ r, r ∈ records ∧ host_vars_of r = None.
Proof.
  rewrite main_unfold. split.
  - intros Hmain.
    destruct (decide (Forall (λ r, is_Some (host_vars_of r)) records)) as [Hall|Hex].
    + rewrite Forall_forall in Hall.
      destruct (hostvars_loop_Some records (inventory (init records)))
        as (inv & Hloop & _ & _ & Hframe); [apply init_has_hostvars | done |].
      rewrite Hloop in Hmain. simpl in Hmain.
      destruct (emit_groups_is_Some o (group_map (vm_name <$> records)) inv
                  [("hosts", JArr (JStr <$> (vm_name <$> records)));
                   ("vars", JObj [("ansible_python_interpreter", JStr "/usr/bin/python3")])])
        as [doc Hdoc]; [by rewrite Hframe | congruence].
    + apply not_Forall_Exists, Exists_exists in Hex as (r & Hr & Hnone); [|apply _].
      exists r. split; [done|].
      simpl in Hnone. destruct (host_vars_of r); [destruct Hnone; by eexists | done].
  - intros (r & Hr & Hnone).
    rewrite (for_each_None hostvars_body records r); [done..|].
    intros inv. unfold hostvars_body. by rewrite Hnone.
Qed.

(** A run that prints a document went through [hostvars] without touching
    anything but [_meta.hostvars]. *)
Lemma main_Some o records doc :
  main o records = Some doc →
  ∃ inv, for_each hostvars_body records (inventory (init records)) = Some inv ∧
         emit_groups o (group_map (vm_name <$> records)) inv = Some doc ∧
         has_hostvars inv ∧
         dict_keys inv = ["all"; "_meta"] ∧
         dict_get "all" inv =
           Some (JObj [("hosts", JArr (JStr <$> (vm_name <$> records)));
                       ("vars", JObj [("ansible_python_interpreter",
                                       JStr "/usr/bin/python3")])]).
Proof.
  intros Hmain.
  destruct (hostvars_loop_Some records (inventory (init records)))
    as (inv & Hloop & Hshape & Hkeys & Hframe); [apply init_has_hostvars | |].
  - intros r Hr. destruct (host_vars_of r) eqn:Hhv; [done|].
    assert (main o records = None) by (apply main_None; eauto). congruence.
  - exists inv. rewrite main_unfold, Hloop in Hmain.
    split_and!; [done..|]. by rewrite Hframe.
Qed.

Lemma group_map_nil ns :
  group_map ns = [] ↔ ∀ n, n ∈ ns → name_groups n = [].
Proof.
  split.
  - intros Hnil n Hn. destruct (name_groups n) as [|g gs] eqn:Hg; [done|].
    assert (g ∈ dict_keys (group_map ns)) as Hin.
    { apply group_map_keys. exists n. split; [done|]. rewrite Hg. left. }
    rewrite Hnil in Hin. by apply elem_of_nil in Hin.
  - intros Hnone. destruct (group_map ns) as [|[g hosts] gm] eqn:Hgm; [done|].
    assert (g ∈ dict_keys (group_map ns)) as (n & Hn & Hg)%group_map_keys
      by (rewrite Hgm; left).
    rewrite (Hnone n Hn) in Hg. by apply elem_of_nil in Hg.
Qed.

Lemma enum_singleton o x : enum o [x] = [x].
Proof. apply Permutation_singleton_r, enum_perm. Qed.

(** ** Writing the groups *)

Section emit.
Context (o : SetOrder).

Lemma emit_fold_get_other gm inv k :
  k ∉ dict_keys gm → dict_get k (foldl (write_group o) inv gm) = dict_get k inv.
Proof.
  revert inv. induction gm as [|[g hosts] gm IH]; intros inv Hk; [done|].
  apply not_elem_of_cons in Hk as [Hne Hk]. simpl in *.
  rewrite IH by done. by apply dict_get_set_ne.
Qed.

Lemma emit_fold_get gm inv g hosts :
  NoDup (dict_keys gm) → dict_get g gm = Some hosts →
  dict_get g (foldl (write_group o) inv gm) = Some (group_entry o hosts).
Proof.
  revert inv. induction gm as [|[g' hosts'] gm IH]; intros inv Hnd Hg; [done|].
  apply NoDup_cons in Hnd as [Hnotin Hnd]. simpl in *.
  case_decide as Heq.
  - injection Hg as ->. subst g'. rewrite emit_fold_get_other by done.
    apply dict_get_set_eq.
  - by apply IH.
Qed.

Lemma emit_fold_keys gm inv k :
  k ∈ dict_keys (foldl (write_group o) inv gm) ↔ k ∈ dict_keys inv ∨ k ∈ dict_keys gm.
Proof.
  revert inv. induction gm as [|[g hosts] gm IH]; intros inv; simpl.
  - rewrite elem_of_nil. tauto.
  - rewrite IH, dict_keys_set_elem. unfold dict_keys at 3. csimpl.
    rewrite elem_of_cons. tauto.
Qed.

(** An assignment to a key that is already there and is no group can be
    moved across the loop that writes the groups. *)
Lemma emit_fold_set_comm gm inv k v :
  k ∈ dict_keys inv → k ∉ dict_keys gm →
  foldl (write_group o) (dict_set k v inv) gm = dict_set k v (foldl (write_group o) inv gm).
Proof.
  revert inv. induction gm as [|[g hosts] gm IH]; intros inv Hin Hk; [done|].
  apply not_elem_of_cons in Hk as [Hne Hk]. simpl in *.
  rewrite <- IH; [|apply dict_keys_set_elem; by right | done].
  f_equal. symmetry. by apply dict_set_comm.
Qed.

Lemma emit_groups_set_comm gm inv k v :
  k ≠ "all" → k ∈ dict_keys inv → k ∉ dict_keys gm →
  emit_groups o gm (dict_set k v inv) = dict_set k v <$> emit_groups o gm inv.
Proof.
  intros Hall Hin Hk. unfold emit_groups. destruct gm as [|p gm]; [done|].
  revert Hk. generalize (p :: gm). intros l Hk.
  rewrite dict_get_set_ne by done.
  destruct (dict_get "all" inv) as [all|] eqn:Hget; simpl; [|done].
  destruct (store all "children" _) as [all'|]; simpl; [|done].
  f_equal. rewrite dict_set_comm; [|done|by apply dict_get_Some_keys in Hget].
  apply emit_fold_set_comm; [|done]. apply dict_keys_set_elem. by right.
Qed.

Lemma emit_groups_get_other gm inv inv' k :
  emit_groups o gm inv = Some inv' → k ≠ "all" → k ∉ dict_keys gm →
  dict_get k inv' = dict_get k inv.
Proof.
  unfold emit_groups. destruct gm as [|p gm]; [by intros [= <-]|].
  generalize (p :: gm). intros l.
  destruct (dict_get "all" inv) as [all|]; simpl; [|done].
  destruct (store all "children" _) as [all'|]; simpl; [|done].
  intros [= <-] Hall Hk. rewrite emit_fold_get_other by done.
  by apply dict_get_set_ne.
Qed.

(** One turn of [hostvars] and the group stage can be swapped, provided
    ["_meta"] is no group. *)
Lemma hostvars_body_emit_comm gm inv r :
  "_meta" ∉ dict_keys gm →
  hostvars_body inv r ≫= emit_groups o gm =
  emit_groups o gm inv ≫= λ inv', hostvars_body inv' r.
Proof.
  intros Hmeta. unfold hostvars_body.
  destruct (host_vars_of r) as [[|e hv]|]; simpl;
    [by destruct (emit_groups o gm inv)| |by destruct (emit_groups o gm inv)].
  destruct (emit_groups o gm inv) as [inv2|] eqn:Hemit; simpl.
  - rewrite (emit_groups_get_other gm inv inv2 "_meta") by done.
    destruct (dict_get "_meta" inv) as [meta|] eqn:Hget; simpl; [|done].
    destruct (subscript meta "hostvars") as [table|]; simpl; [|done].
    destruct (store table _ _) as [table'|]; simpl; [|done].
    destruct (store meta _ _) as [meta'|]; simpl; [|done].
    rewrite emit_groups_set_comm, Hemit; [done..| |done].
    by apply dict_get_Some_keys in Hget.
  - destruct (dict_get "_meta" inv) as [meta|] eqn:Hget; simpl; [|done].
    destruct (subscript meta "hostvars") as [table|]; simpl; [|done].
    destruct (store table _ _) as [table'|]; simpl; [|done].
    destruct (store meta _ _) as [meta'|]; simpl; [|done].
    rewrite emit_groups_set_comm, Hemit; [done..| |done].
    by apply dict_get_Some_keys in Hget.
Qed.

Lemma hostvars_loop_emit_comm gm l inv :
  "_meta" ∉ dict_keys gm →
  for_each hostvars_body l inv ≫= emit_groups o gm =
  emit_groups o gm inv ≫= for_each hostvars_body l.
Proof.
  intros Hmeta. revert inv. induction l as [|r l IH]; intros inv; simpl.
  - by destruct (emit_groups o gm inv).
  - transitivity ((hostvars_body inv r ≫= emit_groups o gm) ≫= for_each hostvars_body l).
    + destruct (hostvars_body inv r) as [inv1|]; simpl; [apply IH | done].
    + rewrite hostvars_body_emit_comm by done.
      by destruct (emit_groups o gm inv).
Qed.

(** The two stages can be run in either order on any builder none of whose
    groups is named ["_meta"]. *)
Lemma stages_commute self :
  "_meta" ∉ dict_keys (group_map (names self)) →
  hostvars self ≫= groups o = groups o self ≫= hostvars.
Proof.
  intros Hmeta. unfold hostvars, groups.
  pose proof (hostvars_loop_emit_comm _ (vms self) (inventory self) Hmeta) as Hcomm.
  destruct (for_each hostvars_body (vms self) (inventory self)) as [inv1|]; simpl in *.
  - destruct (emit_groups o _ (inventory self)) as [inv2|]; simpl in *.
    + rewrite Hcomm. destruct (for_each hostvars_body (vms self) inv2); done.
    + by rewrite Hcomm.
  - destruct (emit_groups o _ (inventory self)) as [inv2|]; simpl in *; [|done].
    by rewrite <- Hcomm.
Qed.

Lemma main_groups_first_eq records :
  "_meta" ∉ dict_keys (group_map (vm_name <$> records)) →
  main_groups_first o records = main o records.
Proof.
  intros Hmeta. unfold main, main_groups_first.
  pose proof (stages_commute (init records) Hmeta) as Hcomm.
  destruct (hostvars (init records)) as [ib1|], (groups o (init records)) as [ib2|];
    simpl in *; first [by rewrite Hcomm | by rewrite <- Hcomm | done].
Qed.
End emit.

(** ** The document when no group is named ["all"] *)

Section guarded.
Context (o : SetOrder).

(** The members listed for a group: each once, at least one, all of them
    names with a slash that the group is an ancestor of. *)
Lemma group_members_ok ns g hosts :
  dict_get g (group_map ns) = Some hosts →
  NoDup (enum o hosts) ∧ enum o hosts ≠ [] ∧
  ∀ n, n ∈ enum o hosts ↔ n ∈ ns ∧ g ∈ name_groups n.
Proof.
  intros Hg. destruct (group_map_wf ns) as [_ Hwf].
  destruct (Hwf g hosts Hg) as [Hne Hnd]. split_and!.
  - by rewrite enum_perm.
  - intros Hnil. pose proof (enum_perm o hosts) as Hp. rewrite Hnil in Hp.
    by apply Permutation_nil_l in Hp.
  - intros n. rewrite enum_perm. by apply group_map_members.
Qed.

Lemma group_member_has_slash ns g hosts n :
  dict_get g (group_map ns) = Some hosts → n ∈ enum o hosts → char_in "/" n = true.
Proof.
  intros Hg [_ Hn]%(group_members_ok ns g hosts Hg).
  destruct (char_in "/" n) eqn:Hslash; [done|].
  rewrite name_groups_no_slash in Hn by done. by apply elem_of_nil in Hn.
Qed.

(** Outside the collision with ["all"], the printed document lists every
    name under [all.hosts], every group under [all.children], and has one
    entry per group. *)
Lemma main_groups_ok records doc :
  main o records = Some doc →
  "all" ∉ dict_keys (group_map (vm_name <$> records)) →
  at_path doc ["all"; "hosts"] = Some (JArr (JStr <$> (vm_name <$> records))) ∧
  (group_map (vm_name <$> records) ≠ [] →
   at_path doc ["all"; "children"] =
     Some (JArr (JStr <$> dict_keys (group_map (vm_name <$> records))))) ∧
  (∀ k, k ∈ dict_keys doc ↔
        k = "all" ∨ k = "_meta" ∨ k ∈ dict_keys (group_map (vm_name <$> records))) ∧
  (∀ g hosts, dict_get g (group_map (vm_name <$> records)) = Some hosts →
              dict_get g doc = Some (group_entry o hosts)).
Proof.
  intros (inv & _ & Hemit & _ & Hkeys & Hall)%main_Some Hnotin.
  destruct (group_map_wf (vm_name <$> records)) as [Hnd _].
  revert Hemit Hnotin Hnd. generalize (group_map (vm_name <$> records)). intros gm.
  unfold emit_groups. destruct gm as [|p gm].
  { intros [= <-] _ _. unfold at_path. simpl. rewrite Hall. simpl.
    split_and!; [done..| |done]. intros k. rewrite Hkeys.
    rewrite !elem_of_cons, !elem_of_nil. tauto. }
  generalize (p :: gm). clear p gm. intros gm. rewrite Hall. simpl.
  intros [= <-] Hnotin Hnd.
  assert (dict_get "all"
            (foldl (write_group o)
               (dict_set "all"
                  (JObj [("hosts", JArr (JStr <$> (vm_name <$> records)));
                         ("vars", JObj [("ansible_python_interpreter",
                                         JStr "/usr/bin/python3")]);
                         ("children", JArr (JStr <$> dict_keys gm))]) inv) gm) =
          Some (JObj [("hosts", JArr (JStr <$> (vm_name <$> records)));
                      ("vars", JObj [("ansible_python_interpreter",
                                      JStr "/usr/bin/python3")]);
                      ("children", JArr (JStr <$> dict_keys gm))])) as Hall'.
  { rewrite emit_fold_get_other by done. apply dict_get_set_eq. }
  split_and!.
  - unfold at_path. simpl. by rewrite Hall'.
  - intros _. unfold at_path. simpl. by rewrite Hall'.
  - intros k. rewrite emit_fold_keys, dict_keys_set_elem, Hkeys.
    rewrite !elem_of_cons, !elem_of_nil. tauto.
  - intros g hosts Hg. by apply emit_fold_get.
Qed.
(** Outside the collision with ["all"], and for names that are pairwise
    distinct: each name once under [all.hosts], each group once under
    [all.children], each member once in the list of its group. *)
Lemma lists_without_repetition records doc :
  main o records = Some doc →
  NoDup (vm_name <$> records) →
  "all" ∉ dict_keys (group_map (vm_name <$> records)) →
  (∃ l, at_path doc ["all"; "hosts"] = Some (JArr (JStr <$> l)) ∧ NoDup l ∧
        ∀ r, r ∈ records → vm_name r ∈ l) ∧
  (group_map (vm_name <$> records) ≠ [] →
   ∃ l, at_path doc ["all"; "children"] = Some (JArr (JStr <$> l)) ∧ NoDup l ∧
        ∀ g, g ∈ l ↔ ∃ n, n ∈ vm_name <$> records ∧ g ∈ name_groups n) ∧
  (∀ g, g ∈ dict_keys (group_map (vm_name <$> records)) →
   ∃ l, dict_get g doc = Some (JObj [("hosts", JArr (JStr <$> l))]) ∧ NoDup l).
Proof.
  intros Hmain Hnd Hall.
  destruct (main_groups_ok records doc Hmain Hall) as (Hhosts & Hchildren & _ & Hgroups).
  split_and!.
  - exists (vm_name <$> records). split_and!; [done..|].
    intros r Hr. apply list_elem_of_fmap. eauto.
  - intros Hne. exists (dict_keys (group_map (vm_name <$> records))).
    split_and!; [auto | apply group_map_wf | apply group_map_keys].
  - intros g Hg.
    destruct (dict_get g (group_map (vm_name <$> records))) as [hosts|] eqn:Hget;
      [|by apply dict_get_None_keys in Hget].
    exists (enum o hosts). split; [by apply Hgroups|].
    by apply (group_members_ok (vm_name <$> records) g).
Qed.

(** Outside the collision with ["all"]: the groups listed under
    [all.children] are the keys written by the group stage, each with at
    least one member, and every member has a slash in its name. *)
Lemma children_match_groups records doc :
  main o records = Some doc →
  group_map (vm_name <$> records) ≠ [] →
  "all" ∉ dict_keys (group_map (vm_name <$> records)) →
  ∃ children,
    at_path doc ["all"; "children"] = Some (JArr (JStr <$> children)) ∧
    (∀ g, g ∈ children ↔ g ∈ dict_keys (group_map (vm_name <$> records))) ∧
    (∀ g, g ∈ children →
       ∃ l, dict_get g doc = Some (JObj [("hosts", JArr (JStr <$> l))]) ∧
            l ≠ [] ∧ ∀ n, n ∈ l → char_in "/" n = true).
Proof.
  intros Hmain Hne Hall.
  destruct (main_groups_ok records doc Hmain Hall) as (_ & Hchildren & _ & Hgroups).
  exists (dict_keys (group_map (vm_name <$> records))). split_and!; [auto | done |].
  intros g Hg.
  destruct (dict_get g (group_map (vm_name <$> records))) as [hosts|] eqn:Hget;
    [|by apply dict_get_None_keys in Hget].
  exists (enum o hosts). split_and!; [by apply Hgroups | |].
  - by apply (group_members_ok (vm_name <$> records) g).
  - intros n. by apply (group_member_has_slash (vm_name <$> records) g hosts).
Qed.
End guarded.

(** ** The table of host variables *)

Lemma NoDup_fmap_same {A B} (f : A → B) (l : list A) x y :
  NoDup (f <$> l) → x ∈ l → y ∈ l → f x = f y → x = y.
Proof.
  induction l as [|a l IH]; csimpl; [by intros _ ?%elem_of_nil|].
  intros [Hnotin Hnd]%NoDup_cons [->|Hx]%elem_of_cons [->|Hy]%elem_of_cons Heq; auto.
  - destruct Hnotin. rewrite Heq. apply list_elem_of_fmap. eauto.
  - destruct Hnotin. rewrite <- Heq. apply list_elem_of_fmap. eauto.
Qed.

(** A turn of the loop for a record without host variables, or for a record
    of another name, leaves the entry of name [n] as it is. *)
Lemma hostvars_body_entry inv inv' r n :
  hostvars_body inv r = Some inv' →
  (vm_name r = n → host_vars_of r = Some []) →
  at_path inv' ["_meta"; "hostvars"; n] = at_path inv ["_meta"; "hostvars"; n].
Proof.
  unfold hostvars_body.
  destruct (host_vars_of r) as [[|e hv]|]; simpl; [by intros [= <-] | | done].
  destruct (dict_get "_meta" inv) as [meta|] eqn:Hmeta; simpl; [|done].
  destruct meta as [| | | | |m]; simpl; try done.
  destruct (dict_get "hostvars" m) as [table|] eqn:Htable; simpl; [|done].
  destruct table as [| | | | |t]; simpl; try done.
  intros [= <-] Hname. unfold at_path. simpl.
  rewrite dict_get_set_eq, Hmeta. simpl. rewrite dict_get_set_eq, Htable. simpl.
  apply dict_get_set_ne. intros Heq. by specialize (Hname Heq).
Qed.

Lemma hostvars_loop_entry l inv inv' n :
  for_each hostvars_body l inv = Some inv' →
  (∀ r, r ∈ l → vm_name r = n → host_vars_of r = Some []) →
  at_path inv' ["_meta"; "hostvars"; n] = at_path inv ["_meta"; "hostvars"; n].
Proof.
  revert inv. induction l as [|r l IH]; intros inv; simpl; [by intros [= <-]|].
  destruct (hostvars_body inv r) as [inv1|] eqn:Hbody; simpl; [|done].
  intros Hloop Hempty.
  rewrite (IH inv1 Hloop) by (intros r' Hr' Hn; apply Hempty; [by right | done]).
  apply (hostvars_body_entry inv inv1 r n Hbody), Hempty. left.
Qed.

(** With names that are pairwise distinct, the printed document has no
    entry under [_meta.hostvars] for a record without host variables. *)
Lemma main_no_entry o records doc r :
  main o records = Some doc → NoDup (vm_name <$> records) → r ∈ records →
  host_vars_of r = Some [] →
  at_path doc ["_meta"; "hostvars"; vm_name r] = None.
Proof.
  intros (inv & Hloop & Hemit & _)%main_Some Hnd Hr Hempty.
  assert (at_path inv ["_meta"; "hostvars"; vm_name r] = None) as Hinv.
  { rewrite (hostvars_loop_entry records _ inv (vm_name r) Hloop); [done|].
    intros r' Hr' Heq. by rewrite (NoDup_fmap_same vm_name records r' r). }
  destruct (group_map_wf (vm_name <$> records)) as [Hkeys _].
  destruct (dict_get "_meta" (group_map (vm_name <$> records))) as [hosts|] eqn:Hg.
  - assert (dict_get "_meta" doc = Some (group_entry o hosts)) as Hdoc.
    { revert Hemit Hkeys Hg. generalize (group_map (vm_name <$> records)). intros gm.
      unfold emit_groups. destruct gm as [|p gm]; [done|]. generalize (p :: gm).
      clear p gm. intros gm.
      destruct (dict_get "all" inv) as [all|]; simpl; [|done].
      destruct (store all "children" _) as [all'|]; simpl; [|done].
      intros [= <-] Hkeys Hg. by apply emit_fold_get. }
    unfold at_path. simpl. by rewrite Hdoc.
  - apply dict_get_None_keys in Hg.
    rewrite <- Hinv. unfold at_path. simpl.
    by rewrite (emit_groups_get_other o _ inv doc "_meta" Hemit).
Qed.

(** A turn of the loop for a record with host variables stores them under
    its name. *)
Lemma hostvars_body_stores inv inv' r hv :
  hostvars_body inv r = Some inv' → host_vars_of r = Some hv → hv ≠ [] →
  at_path inv' ["_meta"; "hostvars"; vm_name r] = Some (JObj hv).
Proof.
  unfold hostvars_body. intros Hbody Hhv Hne. rewrite Hhv in Hbody. simpl in Hbody.
  destruct hv as [|e hv]; [done|].
  destruct (dict_get "_meta" inv) as [meta|]; simpl in Hbody; [|done].
  destruct meta as [| | | | |m]; simpl in Hbody; try done.
  destruct (dict_get "hostvars" m) as [table|]; simpl in Hbody; [|done].
  destruct table as [| | | | |t]; simpl in Hbody; try done.
  injection Hbody as <-. unfold at_path. simpl.
  rewrite dict_get_set_eq. simpl. rewrite dict_get_set_eq. simpl.
  apply dict_get_set_eq.
Qed.

Lemma hostvars_loop_stores l inv inv' r hv :
  for_each hostvars_body l inv = Some inv' → NoDup (vm_name <$> l) → r ∈ l →
  host_vars_of r = Some hv → hv ≠ [] →
  at_path inv' ["_meta"; "hostvars"; vm_name r] = Some (JObj hv).
Proof.
  revert inv. induction l as [|r' l IH]; intros inv; csimpl;
    [by intros _ _ ?%elem_of_nil|].
  destruct (hostvars_body inv r') as [inv1|] eqn:Hbody; simpl; [|done].
  intros Hloop [Hnotin Hnd]%NoDup_cons [->|Hr]%elem_of_cons Hhv Hne.
  - rewrite (hostvars_loop_entry l inv1 inv' (vm_name r') Hloop).
    + by apply (hostvars_body_stores inv).
    + intros r Hr Heq. destruct Hnotin. rewrite <- Heq. apply list_elem_of_fmap. eauto.
  - by apply (IH inv1).
Qed.

(** With names that are pairwise distinct and no group named ["_meta"],
    the printed document holds the host variables of every record that has
    some, under its name. *)
Lemma main_entry o records doc r hv :
  main o records = Some doc → NoDup (vm_name <$> records) →
  "_meta" ∉ dict_keys (group_map (vm_name <$> records)) →
  r ∈ records → host_vars_of r = Some hv → hv ≠ [] →
  at_path doc ["_meta"; "hostvars"; vm_name r] = Some (JObj hv).
Proof.
  intros (inv & Hloop & Hemit & _)%main_Some Hnd Hmeta Hr Hhv Hne.
  rewrite <- (hostvars_loop_stores records _ inv r hv Hloop) by done.
  unfold at_path. simpl.
  by rewrite (emit_groups_get_other o _ inv doc "_meta" Hemit).
Qed.

(** ** Documents up to the order of lists *)

Lemma doc_equiv_refl d : doc_equiv d d.
Proof. induction d; constructor; [by split; [|left] | done]. Qed.

Lemma dict_set_equiv k v1 v2 d1 d2 :
  doc_equiv d1 d2 → entry_equiv v1 v2 →
  doc_equiv (dict_set k v1 d1) (dict_set k v2 d2).
Proof.
  intros Hd Hv. induction Hd as [|[k1 w1] [k2 w2] d1 d2 [Hk Hw] Hd IH]; simpl in *.
  - constructor; [by split | constructor].
  - subst k2. case_decide; constructor; by try split.
Qed.

Lemma group_entry_equiv o1 o2 hosts :
  entry_equiv (group_entry o1 hosts) (group_entry o2 hosts).
Proof.
  right. do 2 eexists. split_and!; [done..|].
  apply fmap_Permutation. by rewrite !enum_perm.
Qed.

Lemma emit_fold_equiv o1 o2 (gm : pydict pyset) d1 d2 :
  doc_equiv d1 d2 →
  doc_equiv
    (foldl (write_group o1) d1 gm) (foldl (write_group o2) d2 gm).
Proof.
  revert d1 d2. induction gm as [|[g hosts] gm IH]; intros d1 d2 Hd; [done|].
  simpl. apply IH, dict_set_equiv; [done | apply group_entry_equiv].
Qed.

Lemma emit_groups_equiv o1 o2 gm inv :
  option_Forall2 doc_equiv (emit_groups o1 gm inv) (emit_groups o2 gm inv).
Proof.
  unfold emit_groups. destruct gm as [|p gm]; [constructor; apply doc_equiv_refl|].
  generalize (p :: gm). intros l.
  destruct (dict_get "all" inv) as [all|]; simpl; [|constructor].
  destruct (store all "children" _) as [all'|]; simpl; constructor.
  apply emit_fold_equiv, doc_equiv_refl.
Qed.

(** ** Groups of an arbitrary name *)

Lemma length_split c s : length (split c s) = S (count_char c s).
Proof.
  induction s as [|a s IH]; [done|]. simpl.
  destruct (Ascii.eqb a c); simpl; [by rewrite IH|].
  destruct (split c s); simpl in *; lia.
Qed.

Lemma count_char_lstrip c s : (count_char c (lstrip c s) ≤ count_char c s)%nat.
Proof.
  induction s as [|a s IH]; [done|]. simpl.
  destruct (Ascii.eqb a c) eqn:Ha; simpl; [lia | by rewrite Ha].
Qed.

Lemma splitroot_cases name :
  (splitroot name).1 ∈ [""; "/"; "//"] ∧
  ((splitroot name).1 = "" → (splitroot name).2 = name) ∧
  (count_char "/" (splitroot name).2 ≤ count_char "/" name)%nat.
Proof.
  unfold splitroot. destruct name as [|a s]; [by split_and!; [left|..]|].
  destruct (Ascii.eqb a "/") eqn:Ha; [|by split_and!; [left|..]].
  destruct (_ =? 2)%nat;
    (split_and!; [simpl; first [by right; left | by right; right; left]
                 | done | apply count_char_lstrip]).
Qed.

Lemma Path_tail_ok name : Forall (λ x, x ≠ "" ∧ x ≠ ".") (tail (Path name)).
Proof.
  unfold Path. destruct (splitroot name) as [r rel]. simpl.
  apply Forall_forall. by intros x [? _]%list_elem_of_filter.
Qed.

Lemma Path_tail_length name :
  (length (tail (Path name)) ≤ S (count_char "/" name))%nat.
Proof.
  unfold Path. pose proof (splitroot_cases name) as (_ & _ & Hcount).
  destruct (splitroot name) as [r rel]. simpl in *.
  etrans; [apply length_filter|]. rewrite length_split. lia.
Qed.

(** The groups of a name in terms of its parsed path: the proper prefixes
    of its components, the longest first, each behind the root. *)
Lemma name_groups_formula name :
  name_groups name =
  (λ i, as_posix {| root := root (Path name);
                    tail := take (length (tail (Path name)) - S i) (tail (Path name)) |})
    <$> seq 0 (length (tail (Path name)) - 1).
Proof.
  unfold name_groups, parents. simpl.
  by rewrite <- list_fmap_compose, drop_last_fmap_seq.
Qed.

Lemma join_cons_not_dot sep x l : x ≠ "" → x ≠ "." → sep ≠ "" → join sep (x :: l) ≠ ".".
Proof.
  intros Hx Hdot Hsep. destruct l as [|y l]; [done|]. simpl.
  destruct x as [|a x]; [done|]. simpl. intros [= -> Hrest].
  destruct x; [|done]. simpl in Hrest. by destruct sep.
Qed.

(** ** Host variables, key by key *)

Lemma dict_get_app {V} k (d1 d2 : pydict V) :
  dict_get k (d1 ++ d2) =
  match dict_get k d1 with Some v => Some v | None => dict_get k d2 end.
Proof. induction d1 as [|[k' v'] d1 IH]; simpl; [done|]. by case_decide. Qed.

Lemma dict_get_entry k k' x :
  dict_get k (entry k' x) = if decide (k = k') then x else None.
Proof. destruct x; simpl; by case_decide. Qed.

Lemma host_vars_list_keys_NoDup r address : NoDup (dict_keys (host_vars_list r address)).
Proof.
  unfold host_vars_list.
  destruct (get_truthy r "ssh_host"), (get_truthy r "ssh_port"),
    (get_truthy r "ssh_user"), (get_truthy r "ssh_key"),
    (get_truthy r "ssh_options"), (get_truthy r "network_address"), address;
    apply (bool_decide_unpack _); by vm_compute.
Qed.

Lemma for_each_app {A S} (body : S → A → option S) l1 l2 st :
  for_each body (l1 ++ l2) st = for_each body l1 st ≫= for_each body l2.
Proof.
  revert st. induction l1 as [|x l1 IH]; intros st; simpl; [done|].
  destruct (body st x); simpl; auto.
Qed.

(** The entry of a name after the loop of [hostvars] is the one of the
    last record of that name that has host variables. *)
Lemma hostvars_loop_last l1 r l2 inv inv' hv :
  for_each hostvars_body (l1 ++ r :: l2) inv = Some inv' →
  host_vars_of r = Some hv → hv ≠ [] →
  (∀ r', r' ∈ l2 → vm_name r' = vm_name r → host_vars_of r' = Some []) →
  at_path inv' ["_meta"; "hostvars"; vm_name r] = Some (JObj hv).
Proof.
  rewrite for_each_app. intros Hloop Hhv Hne Hlater.
  destruct (for_each hostvars_body l1 inv) as [inv1|]; simpl in Hloop; [|done].
  destruct (hostvars_body inv1 r) as [inv2|] eqn:Hbody; simpl in Hloop; [|done].
  rewrite (hostvars_loop_entry l2 inv2 inv' (vm_name r) Hloop) by done.
  by apply (hostvars_body_stores inv1).
Qed.

(** ** What each stage leaves alone *)

Lemma hostvars_body_frame inv inv' r :
  hostvars_body inv r = Some inv' →
  dict_keys inv' = dict_keys inv ∧
  ∀ k, k ≠ "_meta" → dict_get k inv' = dict_get k inv.
Proof.
  unfold hostvars_body.
  destruct (host_vars_of r) as [[|e hv]|]; simpl; [by intros [= <-] | | done].
  destruct (dict_get "_meta" inv) as [meta|] eqn:Hmeta; simpl; [|done].
  destruct (subscript meta "hostvars") as [table|]; simpl; [|done].
  destruct (store table _ _) as [table'|]; simpl; [|done].
  destruct (store meta _ _) as [meta'|]; simpl; [|done].
  intros [= <-]. split.
  - rewrite dict_keys_set, decide_True; [done|]. by apply dict_get_Some_keys in Hmeta.
  - intros k Hk. by rewrite dict_get_set_ne.
Qed.

Lemma hostvars_loop_frame l inv inv' :
  for_each hostvars_body l inv = Some inv' →
  dict_keys inv' = dict_keys inv ∧
  ∀ k, k ≠ "_meta" → dict_get k inv' = dict_get k inv.
Proof.
  revert inv. induction l as [|r l IH]; intros inv; simpl; [by intros [= <-]|].
  destruct (hostvars_body inv r) as [inv1|] eqn:Hbody; simpl; [|done].
  intros [Hkeys Hget]%IH. apply hostvars_body_frame in Hbody as [Hkeys1 Hget1].
  split; [congruence|]. intros k Hk. by rewrite Hget, Hget1.
Qed.

Lemma dict_keys_set_prefix {V} k (v : V) (d : pydict V) :
  ∃ extra, dict_keys (dict_set k v d) = dict_keys d ++ extra.
Proof.
  rewrite dict_keys_set. case_decide; [exists []; by rewrite app_nil_r | by eexists].
Qed.

Lemma emit_fold_keys_prefix o gm inv :
  ∃ extra, dict_keys (foldl (write_group o) inv gm) = dict_keys inv ++ extra.
Proof.
  revert inv. induction gm as [|[g hosts] gm IH]; intros inv; simpl.
  - exists []. by rewrite app_nil_r.
  - destruct (IH (dict_set g (group_entry o hosts) inv)) as [extra ->].
    destruct (dict_keys_set_prefix g (group_entry o hosts) inv) as [extra' ->].
    exists (extra' ++ extra). by rewrite <- app_assoc.
Qed.

Lemma emit_fold_keys_NoDup o gm inv :
  NoDup (dict_keys inv) → NoDup (dict_keys (foldl (write_group o) inv gm)).
Proof.
  revert inv. induction gm as [|[g hosts] gm IH]; intros inv Hnd; simpl; [done|].
  by apply IH, dict_keys_set_NoDup.
Qed.

(** The keys of the document written by the group stage. *)
Lemma emit_groups_keys o gm inv doc :
  emit_groups o gm inv = Some doc →
  (∃ extra, dict_keys doc = dict_keys inv ++ extra) ∧
  (NoDup (dict_keys inv) → NoDup (dict_keys doc)) ∧
  ∀ k, k ∈ dict_keys doc ↔ k ∈ dict_keys inv ∨ k ∈ dict_keys gm.
Proof.
  unfold emit_groups. destruct gm as [|p gm].
  { intros [= <-]. split_and!; [exists []; by rewrite app_nil_r | done |].
    intros k. rewrite elem_of_nil. tauto. }
  generalize (p :: gm). clear p gm. intros gm.
  destruct (dict_get "all" inv) as [all|] eqn:Hall; simpl; [|done].
  destruct (store all "children" _) as [all'|]; simpl; [|done].
  intros [= <-].
  assert (dict_keys (dict_set "all" all' inv) = dict_keys inv) as Hkeys.
  { rewrite dict_keys_set, decide_True; [done|]. by apply dict_get_Some_keys in Hall. }
  split_and!.
  - destruct (emit_fold_keys_prefix o gm (dict_set "all" all' inv)) as [extra ->].
    exists extra. by rewrite Hkeys.
  - intros Hnd. apply emit_fold_keys_NoDup. by rewrite Hkeys.
  - intros k. by rewrite emit_fold_keys, Hkeys.
Qed.

(** ** When a stage raises *)

Lemma has_hostvars_dec inv : has_hostvars inv ∨ ¬ has_hostvars inv.
Proof.
  unfold has_hostvars.
  destruct (dict_get "_meta" inv) as [[| | | | |m]|];
    try (right; intros (? & ? & ? & ?); congruence).
  destruct (dict_get "hostvars" m) as [[| | | | |t]|] eqn:Ht;
    try (right; intros (? & ? & [= <-] & ?); congruence).
  left. eauto.
Qed.

Lemma hostvars_body_None inv r :
  hostvars_body inv r = None ↔
  host_vars_of r = None ∨
  (¬ has_hostvars inv ∧ ∃ hv, host_vars_of r = Some hv ∧ hv ≠ []).
Proof.
  unfold hostvars_body, has_hostvars.
  destruct (host_vars_of r) as [[|e hv]|]; simpl.
  - split; [done|]. by intros [?|(_ & ? & [= <-] & ?)].
  - destruct (dict_get "_meta" inv) as [[| | | | |m]|]; simpl;
      try (split; [intros _; right; split;
                     [intros (? & ? & ? & ?); congruence | by eexists]
                  | done]).
    destruct (dict_get "hostvars" m) as [[| | | | |t]|] eqn:Ht; simpl;
      try (split; [intros _; right; split;
                     [intros (? & ? & [= <-] & ?); congruence | by eexists]
                  | done]).
    split; [done|]. intros [?|[Hno _]]; [done|]. destruct Hno. eauto.
  - split; [by left | done].
Qed.

Lemma hostvars_body_has_hostvars inv inv' r :
  hostvars_body inv r = Some inv' → has_hostvars inv' ↔ has_hostvars inv.
Proof.
  unfold hostvars_body, has_hostvars.
  destruct (host_vars_of r) as [[|e hv]|]; simpl; [by intros [= <-] | | done].
  destruct (dict_get "_meta" inv) as [[| | | | |m]|] eqn:Hm; simpl; try done.
  destruct (dict_get "hostvars" m) as [[| | | | |t]|] eqn:Ht; simpl; try done.
  intros [= <-]. split; intros _.
  - eauto.
  - do 2 eexists. rewrite dict_get_set_eq. split; [done|]. apply dict_get_set_eq.
Qed.

Lemma hostvars_loop_None l inv :
  for_each hostvars_body l inv = None ↔
  (∃ r, r ∈ l ∧ host_vars_of r = None) ∨
  (¬ has_hostvars inv ∧ ∃ r hv, r ∈ l ∧ host_vars_of r = Some hv ∧ hv ≠ []).
Proof.
  revert inv. induction l as [|r l IH]; intros inv; simpl.
  - split; [done|]. intros [(? & []%elem_of_nil & _)|(_ & ? & ? & []%elem_of_nil & _)].
  - destruct (hostvars_body inv r) as [inv1|] eqn:Hbody; simpl.
    + pose proof (hostvars_body_has_hostvars inv inv1 r Hbody) as Hhas.
      assert (hostvars_body inv r ≠ None) as Hok by congruence.
      rewrite hostvars_body_None in Hok.
      rewrite IH, Hhas. split.
      * intros [(r' & Hr' & Hnone)|(Hno & r' & hv & Hr' & Hhv)].
        -- left. exists r'. split; [by right | done].
        -- right. split; [done|]. exists r', hv. split; [by right | done].
      * intros [(r' & [->|Hr']%elem_of_cons & Hnone)
               |(Hno & r' & hv & [->|Hr']%elem_of_cons & Hhv)]; eauto 10.
        -- destruct Hok. by left.
        -- destruct Hok. right. eauto.
    + apply hostvars_body_None in Hbody. split; [intros _|done].
      destruct Hbody as [Hnone|(Hno & hv & Hhv)].
      * left. exists r. split; [left | done].
      * right. split; [done|]. exists r, hv. split; [left | done].
Qed.

(** ** IPv4 addresses are printed as they were written *)

Lemma join_cons_cons sep x y l :
  join sep (x :: y :: l) = x +:+ sep +:+ join sep (y :: l).
Proof. done. Qed.

Lemma join_split c s : join (String c "") (split c s) = s.
Proof.
  induction s as [|a s IH]; [done|].
  destruct (split_cons c s) as (x & xs & Hsplit).
  cbn [split]. destruct (Ascii.eqb_spec a c) as [->|Hne].
  - rewrite Hsplit, join_cons_cons, <- Hsplit, IH. done.
  - rewrite Hsplit in *. destruct xs as [|y xs].
    + cbn in IH |- *. by rewrite IH.
    + rewrite join_cons_cons in IH |- *. by rewrite <- IH.
Qed.

Lemma is_digit_cases c :
  is_digit c = true →
  c ∈ ["0"; "1"; "2"; "3"; "4"; "5"; "6"; "7"; "8"; "9"]%char.
Proof.
  destruct c as [[] [] [] [] [] [] [] []]; vm_compute; intros H; try discriminate H;
    apply list_elem_of_In; simpl; auto 12.
Qed.

(** An octet that is accepted is the decimal writing of its value. *)
Lemma parse_octet_str s n :
  parse_octet s = Some n → str_int n = s ∧ (0 ≤ n ≤ 255)%Z.
Proof.
  unfold parse_octet.
  destruct (String.eqb s "") eqn:Hempty; [done|].
  destruct (isdigit s) eqn:Hdigit; simpl; [|done].
  destruct (3 <? String.length s)%nat eqn:Hlen; [done|].
  apply Nat.ltb_ge in Hlen. unfold isdigit in Hdigit. rewrite Hempty in Hdigit.
  simpl in Hdigit.
  destruct s as [|c1 [|c2 [|c3 [|c4 s]]]]; simpl in Hlen; try done; try lia;
    simpl in Hdigit;
    repeat match goal with
           | H : _ && _ = true |- _ => apply andb_prop in H as [? ?]
           end;
    repeat match goal with
           | H : is_digit ?c = true |- _ =>
               apply is_digit_cases in H;
               repeat (apply elem_of_cons in H as [->|H]);
               try (by apply elem_of_nil in H)
           end;
    intros H; vm_compute in H; try discriminate H;
    injection H as <-; vm_compute; by split_and!.
Qed.

Lemma lor_shiftl_octet x d :
  (0 ≤ x → 0 ≤ d ≤ 255 → Z.lor (Z.shiftl x 8) d = x * 256 + d)%Z.
Proof.
  intros Hx Hd. rewrite Z.shiftl_mul_pow2 by lia. change (2 ^ 8)%Z with 256%Z.
  assert (Z.land (x * 256) d = 0)%Z as Hdisjoint.
  { apply Z.bits_inj'. intros i Hi. rewrite Z.land_spec, Z.bits_0.
    destruct (decide (i < 8)%Z).
    - change 256%Z with (2 ^ 8)%Z. rewrite Z.mul_pow2_bits_low by lia. done.
    - destruct (decide (d = 0)%Z) as [->|]; [by rewrite Z.bits_0, andb_false_r|].
      rewrite (Z.bits_above_log2 d i), andb_false_r; [done | lia |].
      assert (Z.log2 d < 8)%Z; [|lia]. apply Z.log2_lt_pow2; lia. }
  by rewrite <- Z.lxor_lor, <- Z.add_nocarry_lxor.
Qed.

Lemma v4_str_from_digits a b c d :
  (0 ≤ a ≤ 255 → 0 ≤ b ≤ 255 → 0 ≤ c ≤ 255 → 0 ≤ d ≤ 255 →
   v4_str (from_digits 8 [a; b; c; d]) =
   join "." [str_int a; str_int b; str_int c; str_int d])%Z.
Proof.
  intros Ha Hb Hc Hd. unfold from_digits. cbn [foldl].
  rewrite Z.shiftl_0_l, Z.lor_0_l.
  rewrite (lor_shiftl_octet a b) by lia.
  rewrite (lor_shiftl_octet (a * 256 + b) c) by lia.
  rewrite (lor_shiftl_octet ((a * 256 + b) * 256 + c) d) by lia.
  unfold v4_str.
  rewrite !Z.shiftr_div_pow2 by lia.
  change 255%Z with (Z.ones 8). rewrite !Z.land_ones by lia.
  change (2 ^ 8)%Z with 256%Z. change (2 ^ 16)%Z with 65536%Z.
  change (2 ^ 24)%Z with 16777216%Z.
  set (n := (((a * 256 + b) * 256 + c) * 256 + d)%Z).
  assert ((n `div` 16777216) `mod` 256 = a)%Z as -> by (subst n; Z.div_mod_to_equations; lia).
  assert ((n `div` 65536) `mod` 256 = b)%Z as -> by (subst n; Z.div_mod_to_equations; lia).
  assert ((n `div` 256) `mod` 256 = c)%Z as -> by (subst n; Z.div_mod_to_equations; lia).
  assert (n `mod` 256 = d)%Z as -> by (subst n; Z.div_mod_to_equations; lia).
  done.
Qed.

(** The address of an IPv4 interface is printed as the text before the
    slash. *)
Lemma v4_interface_str s ip :
  v4_interface s = Some ip → s ≠ "" ∧ head (split "/" s) = Some (v4_str ip).
Proof.
  unfold v4_interface, split_optional_netmask.
  destruct (split "/" s) as [|addr [|mask [|? ?]]] eqn:Hsplit; simpl; try done.
  all: unfold v4_address; destruct (char_in "/" addr); simpl; try done.
  all: unfold v4_int_from_string; destruct (String.eqb addr "") eqn:Haddr; try done.
  all: destruct (split "." addr) as [|s1 [|s2 [|s3 [|s4 [|? ?]]]]] eqn:Hdots;
    simpl; try done.
  all: destruct (parse_octet s1) as [a|] eqn:H1; simpl; try done.
  all: destruct (parse_octet s2) as [b|] eqn:H2; simpl; try done.
  all: destruct (parse_octet s3) as [c|] eqn:H3; simpl; try done.
  all: destruct (parse_octet s4) as [d|] eqn:H4; simpl; try done.
  all: apply parse_octet_str in H1 as [<- ?], H2 as [<- ?], H3 as [<- ?], H4 as [<- ?].
  all: intros Hip.
  all: assert (ip = from_digits 8 [a; b; c; d]) as ->
         by (repeat match type of Hip with
                    | context [v4_make_netmask ?m] => destruct (v4_make_netmask m)
                    end; simpl in Hip; congruence).
  all: rewrite v4_str_from_digits, <- Hdots by done.
  all: change "." with (String "." ""); rewrite join_split.
  all: split; [|done].
  all: intros ->; vm_compute in Hsplit; try discriminate Hsplit.
  injection Hsplit as <-. by vm_compute in Haddr.
Qed.

(** The lookups in the [host_vars] of a record. *)
Lemma host_vars_lookup r hv :
  host_vars_of r = Some hv →
  dict_get "ansible_host" hv = get_truthy r "ssh_host" ∧
  dict_get "ansible_port" hv = get_truthy r "ssh_port" ∧
  dict_get "ansible_user" hv = get_truthy r "ssh_user" ∧
  dict_get "ansible_ssh_private_key_file" hv = get_truthy r "ssh_key" ∧
  dict_get "ansible_ssh_common_args" hv = get_truthy r "ssh_options" ∧
  dict_get "network_cidr" hv = get_truthy r "network_address" ∧
  dict_get "network_address" hv =
    JStr <$> (get_truthy r "network_address" ≫= ip_interface_ip) ∧
  (∀ k, k ∉ ["ansible_host"; "ansible_port"; "ansible_user";
             "ansible_ssh_private_key_file"; "ansible_ssh_common_args";
             "network_cidr"; "network_address"] → dict_get k hv = None) ∧
  NoDup (dict_keys hv).
Proof.
  rewrite host_vars_of_eq. intros Hhv.
  assert (∃ address, hv = host_vars_list r address ∧
            address = JStr <$> (get_truthy r "network_address" ≫= ip_interface_ip))
    as (address & -> & Haddr).
  { destruct (get_truthy r "network_address") as [cidr|]; simpl in *.
    - destruct (ip_interface_ip cidr); simpl in *; [|done].
      injection Hhv as <-. by eexists.
    - injection Hhv as <-. by eexists. }
  split_and!; try (unfold host_vars_list;
    rewrite ?dict_get_app, ?dict_get_entry; simpl;
    by repeat (case_match; try done)).
  - intros k Hk.
    destruct (dict_get k (host_vars_list r address)) as [v|] eqn:Hget; [|done].
    apply dict_get_Some_elem, host_vars_list_elem in Hget. destruct Hk.
    destruct Hget as [[-> _]|[[-> _]|[[-> _]|[[-> _]|[[-> _]|[[-> _]|[-> _]]]]]]];
      apply list_elem_of_In; simpl; auto 10.
  - apply host_vars_list_keys_NoDup.
Qed.

(** ** A group parses back to the path it names *)

Lemma split_parts_no_sep c s : Forall (λ x, char_in c x = false) (split c s).
Proof.
  induction s as [|a s IH]; [by repeat constructor|]. cbn [split].
  destruct (Ascii.eqb a c) eqn:Ha; [by constructor|].
  destruct (split_cons c s) as (x & xs & Hsplit). rewrite Hsplit in *.
  apply Forall_cons in IH as [Hx Hxs]. constructor; [|done].
  by rewrite char_in_cons, Ha.
Qed.

Lemma split_app_sep c x s :
  char_in c x = false → split c (x +:+ String c s) = x :: split c s.
Proof.
  induction x as [|a x IH]; intros Hx.
  - change ("" +:+ String c s) with (String c s). cbn [split].
    by rewrite Ascii.eqb_refl.
  - rewrite char_in_cons in Hx. apply orb_false_elim in Hx as [Ha Hx].
    change (String a x +:+ String c s) with (String a (x +:+ String c s)).
    cbn [split]. by rewrite Ha, IH.
Qed.

Lemma split_join c l :
  l ≠ [] → Forall (λ x, char_in c x = false) l →
  split c (join (String c "") l) = l.
Proof.
  induction l as [|x l IH]; [done|]. intros _ [Hx Hl]%Forall_cons.
  destruct l as [|y l]; [by apply split_no_sep|].
  rewrite join_cons_cons.
  change (String c "" +:+ join (String c "") (y :: l))
    with (String c (join (String c "") (y :: l))).
  rewrite split_app_sep by done. by rewrite IH.
Qed.

Lemma Path_tail_no_sep name : Forall (λ x, char_in "/" x = false) (tail (Path name)).
Proof.
  unfold Path. destruct (splitroot name) as [r rel]. simpl.
  apply Forall_forall. intros x [_ Hx]%list_elem_of_filter.
  by apply (proj1 (Forall_forall _ _) (split_parts_no_sep "/" rel)).
Qed.

Lemma join_cons_first sep a x l :
  ∃ rest, join sep (String a x :: l) = String a rest.
Proof. destruct l; simpl; eauto. Qed.

Lemma splitroot_relative a rest :
  Ascii.eqb a "/" = false → splitroot (String a rest) = ("", String a rest).
Proof. intros Ha. unfold splitroot. by rewrite Ha. Qed.

Lemma splitroot_one_slash a rest :
  Ascii.eqb a "/" = false →
  splitroot (String "/" (String a rest)) = ("/", String a rest).
Proof.
  intros Ha. unfold splitroot. rewrite Ascii.eqb_refl. cbn [lstrip].
  rewrite Ascii.eqb_refl, Ha. cbn [String.length].
  by replace (S (S (String.length rest)) - S (String.length rest)) with 1 by lia.
Qed.

Lemma splitroot_two_slashes a rest :
  Ascii.eqb a "/" = false →
  splitroot (String "/" (String "/" (String a rest))) = ("//", String a rest).
Proof.
  intros Ha. unfold splitroot. rewrite Ascii.eqb_refl. cbn [lstrip].
  rewrite !Ascii.eqb_refl, Ha. cbn [String.length].
  by replace (S (S (S (String.length rest))) - S (String.length rest)) with 2 by lia.
Qed.

(** A path with at least one component is read back from its text. *)
Lemma Path_as_posix r x l :
  r ∈ [""; "/"; "//"] →
  Forall (λ x, x ≠ "" ∧ x ≠ ".") (x :: l) →
  Forall (λ x, char_in "/" x = false) (x :: l) →
  Path (as_posix {| root := r; tail := x :: l |}) = {| root := r; tail := x :: l |}.
Proof.
  intros Hr Hok Hsep.
  assert (split "/" (join "/" (x :: l)) = x :: l) as Hsplit
    by by apply (split_join "/").
  assert (filter (λ x, x ≠ "" ∧ x ≠ ".") (x :: l) = x :: l) as Hfilter
    by by apply filter_Forall_id.
  pose proof Hok as [[Hx _] _]%Forall_cons. pose proof Hsep as [Hx' _]%Forall_cons.
  destruct x as [|a x]; [done|]. rewrite char_in_cons in Hx'.
  apply orb_false_elim in Hx' as [Ha _].
  destruct (join_cons_first "/" a x l) as [rest Hjoin].
  unfold as_posix, Path. cbn [root tail].
  repeat (apply elem_of_cons in Hr as [->|Hr]); [..|by apply elem_of_nil in Hr].
  - rewrite decide_True by done. rewrite decide_False by (by rewrite Hjoin).
    assert (splitroot (join "/" (String a x :: l)) = ("", join "/" (String a x :: l))) as ->
      by (rewrite Hjoin; by apply splitroot_relative).
    by rewrite Hsplit, Hfilter.
  - rewrite decide_False by done.
    assert (splitroot ("/" +:+ join "/" (String a x :: l)) =
            ("/", join "/" (String a x :: l))) as ->
      by (rewrite Hjoin; by apply splitroot_one_slash).
    by rewrite Hsplit, Hfilter.
  - rewrite decide_False by done.
    assert (splitroot ("//" +:+ join "/" (String a x :: l)) =
            ("//", join "/" (String a x :: l))) as ->
      by (rewrite Hjoin; by apply splitroot_two_slashes).
    by rewrite Hsplit, Hfilter.
Qed.

(** The groups of a group of a name are groups of the name. *)
Lemma name_groups_closed name g g' :
  g ∈ name_groups name → g' ∈ name_groups g → g' ∈ name_groups name.
Proof.
  rewrite (name_groups_formula name).
  intros (i & -> & [_ Hi]%elem_of_seq)%list_elem_of_fmap.
  pose proof (Path_tail_ok name) as Hok. pose proof (Path_tail_no_sep name) as Hsep.
  assert (root (Path name) ∈ [""; "/"; "//"]) as Hroot.
  { pose proof (splitroot_cases name) as [H _]. unfold Path.
    by destruct (splitroot name). }
  set (r := root (Path name)) in *. set (tl := tail (Path name)) in *.
  set (m := length tl - S i).
  destruct (take m tl) as [|x l] eqn:Htake.
  { apply (f_equal length) in Htake. rewrite length_take in Htake.
    simpl in Htake. lia. }
  assert (Path (as_posix {| root := r; tail := x :: l |}) = {| root := r; tail := x :: l |})
    as Hpath.
  { apply Path_as_posix; [done|..]; rewrite <- Htake; by apply Forall_take. }
  rewrite name_groups_formula, Hpath. cbn [root tail]. rewrite <- Htake.
  intros (j & -> & [_ Hj]%elem_of_seq)%list_elem_of_fmap.
  rewrite length_take in Hj |- *.
  apply list_elem_of_fmap. exists (length tl - m + j). split.
  - f_equal. f_equal. rewrite take_take. f_equal. lia.
  - apply elem_of_seq. lia.
Qed.

(** ** Claims *)

(** Membership in a list that is written out. *)
Local Ltac elem_of_list := apply list_elem_of_In; simpl; auto 10.

Lemma ip_interface_ip_10_0_0_5 : ip_interface_ip (JStr "10.0.0.5/24") = Some "10.0.0.5".
Proof. by vm_compute. Qed.

(** C1, as stated, fails on a rooted name: ["/a/b"] has the three segments
    [""], ["a"], ["b"], hence the two prefixes [""] and ["/a"], while the
    only group derived is ["/a"] (the root is dropped together with the
    ["."] of relative names). *)
Lemma C1_rooted_name_counterexample :
  name_groups "/a/b" = ["/a"] ∧
  ancestor_prefixes "/a/b" = [""; "/a"] ∧
  ¬ (name_groups "/a/b" ≡ₚ ancestor_prefixes "/a/b").
Proof.
  split_and!; [by vm_compute | by vm_compute |].
  intros H%Permutation_length. vm_compute in H. discriminate.
Qed.

(** C1 (amended): for every VM name that is a relative path in normal form
    (its slash-separated segments are non-empty and none is ["."]), the
    groups derived are exactly the [k - 1] prefixes of segments [1..i],
    [1 <= i <= k - 1], and the name is a member of a group exactly when the
    group is one of these prefixes; a name without slash contributes no
    group. *)
Theorem C1_plain_name_groups ns name :
  name ∈ ns → plain_name name →
  name_groups name = reverse (ancestor_prefixes name) ∧
  length (name_groups name) = length (segments name) - 1 ∧
  (∀ g, g ∈ ancestor_prefixes name ↔
        ∃ hosts, dict_get g (group_map ns) = Some hosts ∧ name ∈ hosts) ∧
  (char_in "/" name = false → name_groups name = []).
Proof.
  intros Hin Hp. pose proof (name_groups_plain name Hp) as Heq.
  split_and!; [done| | |apply name_groups_no_slash].
  - rewrite Heq, length_reverse. unfold ancestor_prefixes.
    by rewrite length_fmap, length_seq.
  - intros g. rewrite <- elem_of_reverse, <- Heq. split.
    + intros Hg. destruct (dict_get g (group_map ns)) as [hosts|] eqn:Hget.
      * exists hosts. split; [done|]. by apply (group_map_members ns g hosts name).
      * apply dict_get_None_keys in Hget. destruct Hget.
        apply group_map_keys. eauto.
    + intros (hosts & Hget & Hmem). by apply (group_map_members ns g hosts name) in Hmem as [_ ?].
Qed.

Lemma C1_plain_name_groups_witness :
  "a/b/c" ∈ ["x"; "a/b/c"; "a/d"] ∧ plain_name "a/b/c" ∧
  name_groups "a/b/c" = ["a/b"; "a"] ∧
  length (name_groups "a/b/c") = 2 ∧
  (∀ g, g ∈ ["a"; "a/b"] ↔
        ∃ hosts, dict_get g (group_map ["x"; "a/b/c"; "a/d"]) = Some hosts ∧ "a/b/c" ∈ hosts).
Proof.
  assert ("a/b/c" ∈ ["x"; "a/b/c"; "a/d"]) as Hin by (right; left).
  assert (plain_name "a/b/c") as Hp by (repeat constructor; discriminate).
  destruct (C1_plain_name_groups ["x"; "a/b/c"; "a/d"] "a/b/c" Hin Hp) as (H1 & H2 & H3 & _).
  split_and!; [exact Hin | exact Hp | exact H1 | exact H2 | exact H3].
Defined.

(** C2 fails on a name under ["_meta"]: the group stage replaces the whole
    entry ["_meta"], so the host variables written before it are lost, and
    in the other order [hostvars] raises [KeyError] on ["hostvars"]. *)
Theorem C2_meta_group_breaks_independence o :
  let records := [vm "_meta/x" [("ssh_host", JStr "192.168.0.7")]] in
  main o records =
    Some [("all", JObj [("hosts", JArr [JStr "_meta/x"]);
                        ("vars", JObj [("ansible_python_interpreter",
                                        JStr "/usr/bin/python3")]);
                        ("children", JArr [JStr "_meta"])]);
          ("_meta", JObj [("hosts", JArr [JStr "_meta/x"])])] ∧
  main_groups_first o records = None.
Proof.
  destruct o as [e He].
  assert (e ["_meta/x"] = ["_meta/x"]) as Heq by apply Permutation_singleton_r, He.
  split; vm_compute; [|done]. vm_compute in Heq. by rewrite Heq.
Qed.

(** C3, as stated, fails on an entry that is present but falsy: the empty
    string is no address, yet the run succeeds. *)
Lemma C3_empty_address_counterexample :
  let r := vm "web1" [("network_address", JStr "")] in
  vm_fields r !! "network_address" = Some (JStr "") ∧
  ip_interface_ip (JStr "") = None ∧
  main insertion_order [r] =
    Some [("all", JObj [("hosts", JArr [JStr "web1"]);
                        ("vars", JObj [("ansible_python_interpreter",
                                        JStr "/usr/bin/python3")])]);
          ("_meta", JObj [("hostvars", JObj [])])].
Proof. by vm_compute. Qed.

(** C3 (amended): when some record has a [network_address] that is present,
    truthy and rejected by [ip_interface], the run raises and prints no
    document; when [ip_interface] accepts every truthy [network_address],
    the run prints a document. *)
Theorem C3_malformed_address_fatal o records :
  ((∃ r v, r ∈ records ∧ vm_fields r !! "network_address" = Some v ∧
           truthy v = true ∧ ip_interface_ip v = None) →
   main o records = None) ∧
  ((∀ r v, r ∈ records → vm_fields r !! "network_address" = Some v →
           truthy v = true → is_Some (ip_interface_ip v)) →
   is_Some (main o records)).
Proof.
  split.
  - intros (r & v & Hr & Hv & Ht & Hip). apply main_None. exists r. split; [done|].
    apply host_vars_of_None. exists v. split; [|done]. by apply get_truthy_Some.
  - intros Hok. destruct (main o records) eqn:Hmain; [done|].
    apply main_None in Hmain as (r & Hr & (v & [Hv Ht]%get_truthy_Some & Hip)%host_vars_of_None).
    destruct (Hok r v Hr Hv Ht) as [a Ha]. congruence.
Qed.

Lemma C3_malformed_address_fatal_witness :
  main insertion_order [vm "a" []; vm "b/c" [("network_address", JStr "10.0.0.300/24")]] = None ∧
  is_Some (main insertion_order [vm "a" []; vm "b/c" [("network_address", JStr "10.0.0.5/24")]]).
Proof.
  split.
  - apply C3_malformed_address_fatal.
    exists (vm "b/c" [("network_address", JStr "10.0.0.300/24")]), (JStr "10.0.0.300/24").
    split_and!; [right; left | by vm_compute..].
  - apply C3_malformed_address_fatal. intros r v Hr Hv _.
    repeat (apply elem_of_cons in Hr as [->|Hr]); [..|by apply elem_of_nil in Hr];
      vm_compute in Hv; [discriminate|].
    injection Hv as <-. rewrite ip_interface_ip_10_0_0_5. by eexists.
Defined.

(** C4 fails on a name under ["all"]: the group stage replaces the whole
    entry ["all"], so [all.hosts] lists the members of the group only (here
    ["y"] is missing) and [all.children] is gone. *)
Theorem C4_all_group_overwrites_hosts o :
  main o [vm "all/x" []; vm "y" []] =
    Some [("all", JObj [("hosts", JArr [JStr "all/x"])]);
          ("_meta", JObj [("hostvars", JObj [])])].
Proof.
  destruct o as [e He].
  assert (e ["all/x"] = ["all/x"]) as Heq by apply Permutation_singleton_r, He.
  vm_compute. vm_compute in Heq. by rewrite Heq.
Qed.

(** C5: a record whose only optional entry is
    [network_address = "10.0.0.5/24"] gets exactly the two variables
    [network_cidr = "10.0.0.5/24"] (verbatim) and
    [network_address = "10.0.0.5"] (the address without the prefix length). *)
Theorem C5_only_network_address r :
  vm_fields r !! "network_address" = Some (JStr "10.0.0.5/24") →
  (∀ f, f ∈ ["ssh_host"; "ssh_port"; "ssh_user"; "ssh_key"; "ssh_options"] →
        vm_fields r !! f = None) →
  host_vars_of r = Some [("network_cidr", JStr "10.0.0.5/24");
                         ("network_address", JStr "10.0.0.5")].
Proof.
  intros Hna Hnone. rewrite host_vars_of_eq. unfold host_vars_list.
  assert (get_truthy r "network_address" = Some (JStr "10.0.0.5/24")) as ->
    by by apply get_truthy_Some.
  rewrite !get_truthy_absent by (apply Hnone; elem_of_list).
  by rewrite ip_interface_ip_10_0_0_5.
Qed.

Lemma C5_only_network_address_witness :
  host_vars_of (vm "team/web1" [("network_address", JStr "10.0.0.5/24")]) =
  Some [("network_cidr", JStr "10.0.0.5/24"); ("network_address", JStr "10.0.0.5")].
Proof.
  apply C5_only_network_address.
  - by vm_compute.
  - intros f Hf. repeat (apply elem_of_cons in Hf as [->|Hf]); [by vm_compute..|].
    by apply elem_of_nil in Hf.
Defined.

(** C6: the empty list of records yields the minimal document, without
    error; and whenever no group is derived, the document has no key besides
    ["all"] and ["_meta"], and ["all"] carries ["hosts"] and ["vars"] only
    (no ["children"]). *)
Theorem C6_no_groups o :
  main o [] =
    Some [("all", JObj [("hosts", JArr []);
                        ("vars", JObj [("ansible_python_interpreter",
                                        JStr "/usr/bin/python3")])]);
          ("_meta", JObj [("hostvars", JObj [])])] ∧
  ∀ records doc,
    group_map (vm_name <$> records) = [] → main o records = Some doc →
    dict_keys doc = ["all"; "_meta"] ∧
    dict_get "all" doc =
      Some (JObj [("hosts", JArr (JStr <$> (vm_name <$> records)));
                  ("vars", JObj [("ansible_python_interpreter",
                                  JStr "/usr/bin/python3")])]) ∧
    at_path doc ["all"; "children"] = None.
Proof.
  split; [done|]. intros records doc Hnil Hmain.
  apply main_Some in Hmain as (inv & _ & Hemit & _ & Hkeys & Hall).
  rewrite Hnil in Hemit. injection Hemit as <-.
  split_and!; [done..|]. unfold at_path. simpl. by rewrite Hall.
Qed.

Lemma C6_no_groups_witness :
  let records := [vm "web1" [("ssh_host", JStr "192.168.0.7")]; vm "db" []] in
  let doc :=
    [("all", JObj [("hosts", JArr [JStr "web1"; JStr "db"]);
                   ("vars", JObj [("ansible_python_interpreter",
                                   JStr "/usr/bin/python3")])]);
     ("_meta", JObj [("hostvars", JObj [("web1",
        JObj [("ansible_host", JStr "192.168.0.7")])])])] in
  group_map (vm_name <$> records) = [] ∧
  main insertion_order records = Some doc ∧
  dict_keys doc = ["all"; "_meta"] ∧
  dict_get "all" doc =
    Some (JObj [("hosts", JArr [JStr "web1"; JStr "db"]);
                ("vars", JObj [("ansible_python_interpreter",
                                JStr "/usr/bin/python3")])]) ∧
  at_path doc ["all"; "children"] = None.
Proof.
  intros records doc.
  assert (group_map (vm_name <$> records) = []) as Hnil by by vm_compute.
  assert (main insertion_order records = Some doc) as Hmain by by vm_compute.
  split; [exact Hnil|]. split; [exact Hmain|].
  exact (proj2 (C6_no_groups insertion_order) records doc Hnil Hmain).
Defined.

(** C7: a record with none of the optional entries has empty host
    variables, its turn of the loop writes nothing and (names being pairwise
    distinct) the printed document has no entry for it under
    [_meta.hostvars]; and for every record, a field that is absent leaves
    each of its variables absent, and no variable ever holds a falsy value
    ([None], the empty string, zero). *)
Theorem C7_absent_fields r :
  ((∀ f, f ∈ optional_fields → vm_fields r !! f = None) →
   host_vars_of r = Some [] ∧ (∀ inv, hostvars_body inv r = Some inv) ∧
   ∀ o records doc,
     r ∈ records → NoDup (vm_name <$> records) → main o records = Some doc →
     at_path doc ["_meta"; "hostvars"; vm_name r] = None) ∧
  (∀ hv, host_vars_of r = Some hv →
     (∀ f ks k, (f, ks) ∈ field_vars → vm_fields r !! f = None → k ∈ ks →
                dict_get k hv = None) ∧
     (∀ k v, dict_get k hv = Some v → truthy v = true)).
Proof.
  split.
  - intros Hnone.
    assert (host_vars_of r = Some []) as Hhv.
    { rewrite host_vars_of_eq. unfold host_vars_list.
      by rewrite !get_truthy_absent
        by (apply Hnone; elem_of_list). }
    split_and!; [done| |].
    + intros inv. unfold hostvars_body. by rewrite Hhv.
    + intros o records doc Hr Hnd Hmain. by apply (main_no_entry o records).
  - intros hv Hhv. split.
    + intros f ks k Hf Hnone Hk.
      apply (host_vars_absent r hv f ks k); auto using get_truthy_absent.
    + intros k v. by apply (host_vars_truthy r).
Qed.

Lemma C7_absent_fields_witness :
  let r := vm "solo" [("name", JStr "solo"); ("memory", JInt 2048)] in
  let r' := vm "web1" [("ssh_host", JStr "192.168.0.7"); ("ssh_port", JInt 22)] in
  (host_vars_of r = Some [] ∧ (∀ inv, hostvars_body inv r = Some inv) ∧
   ∀ o records doc,
     r ∈ records → NoDup (vm_name <$> records) → main o records = Some doc →
     at_path doc ["_meta"; "hostvars"; "solo"] = None) ∧
  (∀ k, k ∈ ["network_cidr"; "network_address"] →
        dict_get k [("ansible_host", JStr "192.168.0.7"); ("ansible_port", JInt 22)] = None).
Proof.
  intros r r'. split.
  - apply (C7_absent_fields r). intros f Hf.
    unfold optional_fields, field_vars in Hf.
    repeat (apply elem_of_cons in Hf as [->|Hf]); [by vm_compute..|].
    by apply elem_of_nil in Hf.
  - intros k Hk.
    assert (host_vars_of r' = Some [("ansible_host", JStr "192.168.0.7");
                                    ("ansible_port", JInt 22)]) as Hhv by by vm_compute.
    apply (proj2 (C7_absent_fields r') _ Hhv) with "network_address"
      ["network_cidr"; "network_address"]; [|by vm_compute|done].
    elem_of_list.
Defined.

(** C8: two runs on the same records fail together or print documents with
    the same keys in the same order and the same entries, up to the order in
    which the members of each group are listed (the only order that depends
    on the hash seed of the run). *)
Theorem C8_deterministic o1 o2 records :
  option_Forall2 doc_equiv (main o1 records) (main o2 records).
Proof.
  rewrite !main_unfold.
  destruct (for_each hostvars_body records _) as [inv|]; simpl; [|constructor].
  apply emit_groups_equiv.
Qed.

(** C9: an optional entry that is present with a falsy value ([""], [0],
    [None], [False], an empty list or dict) is treated as if it were absent:
    the host variables are those of the record without the entry, none of
    the variables of that field is set, and a falsy [network_address] is
    never handed to [ip_interface], so it cannot make the run fail. *)
Theorem C9_falsy_as_absent r f ks v :
  (f, ks) ∈ field_vars → vm_fields r !! f = Some v → truthy v = false →
  host_vars_of r = host_vars_of (without f r) ∧
  (∀ inv, hostvars_body inv r = hostvars_body inv (without f r)) ∧
  (∀ hv k, host_vars_of r = Some hv → k ∈ ks → dict_get k hv = None) ∧
  (f = "network_address" → is_Some (host_vars_of r)).
Proof.
  intros Hf Hv Hfalsy.
  pose proof (get_truthy_falsy r f v Hv Hfalsy) as Hnone.
  assert (host_vars_of r = host_vars_of (without f r)) as Heq.
  { apply host_vars_of_ext. intros f'. destruct (decide (f = f')) as [<-|Hne].
    - by rewrite get_truthy_without_eq.
    - by rewrite get_truthy_without_ne. }
  split_and!; [done| | |].
  - intros inv. unfold hostvars_body. by rewrite Heq.
  - intros hv k Hhv Hk. by apply (host_vars_absent r hv f ks k).
  - intros ->. rewrite host_vars_of_eq, Hnone. eauto.
Qed.

Lemma C9_falsy_as_absent_witness :
  let r := vm "web1" [("ssh_host", JStr ""); ("ssh_port", JInt 0);
                      ("ssh_user", JStr "root"); ("network_address", JStr "")] in
  host_vars_of r = host_vars_of (without "ssh_port" r) ∧
  host_vars_of r = Some [("ansible_user", JStr "root")] ∧
  is_Some (host_vars_of r).
Proof.
  intros r.
  assert (("ssh_port", ["ansible_port"]) ∈ field_vars) as Hport
    by elem_of_list.
  assert (("network_address", ["network_cidr"; "network_address"]) ∈ field_vars) as Hna
    by elem_of_list.
  split_and!.
  - by apply (C9_falsy_as_absent r "ssh_port" ["ansible_port"] (JInt 0) Hport).
  - by vm_compute.
  - by apply (C9_falsy_as_absent r "network_address" _ (JStr "") Hna).
Defined.

(** C10 fails on a name under ["all"]: the group ["all"] is derived and
    written as a top-level key, but the list [all.children] that named it is
    overwritten with the entry. *)
Theorem C10_all_group_drops_children o :
  let records := [vm "all/web1" [("ssh_user", JStr "root")]; vm "all/web2" []] in
  ∃ doc, main o records = Some doc ∧
    dict_keys (group_map (vm_name <$> records)) = ["all"] ∧
    dict_keys doc = ["all"; "_meta"] ∧
    at_path doc ["all"; "children"] = None.
Proof.
  destruct o as [e He]. eexists. split; [by vm_compute|]. by vm_compute.
Qed.

(** ** Further properties *)

(** Non-membership in a list that is written out. *)
Local Ltac not_elem_of_list :=
  let H := fresh in
  intros H%list_elem_of_In; vm_compute in H; repeat destruct H as [H|H]; done.

(** X1: the dictionary [groups] built by lines 53-56 has one key for each
    ancestor of some name and no other key, each key once; the member set
    of a group is never empty, holds no name twice, and holds exactly the
    names the group is an ancestor of, all of which contain a slash. *)
Theorem X1_group_map_characterised ns g :
  (g ∈ dict_keys (group_map ns) ↔ ∃ n, n ∈ ns ∧ g ∈ name_groups n) ∧
  NoDup (dict_keys (group_map ns)) ∧
  ∀ hosts, dict_get g (group_map ns) = Some hosts →
    hosts ≠ [] ∧ NoDup hosts ∧
    (∀ n, n ∈ hosts ↔ n ∈ ns ∧ g ∈ name_groups n) ∧
    (∀ n, n ∈ hosts → char_in "/" n = true).
Proof.
  destruct (group_map_wf ns) as [Hkeys Hsets].
  split_and!; [apply group_map_keys | done |].
  intros hosts Hg. destruct (Hsets g hosts Hg) as [Hne Hnd].
  split_and!; [done.. | intros n; by apply group_map_members |].
  intros n [_ Hn]%(group_map_members ns g hosts n Hg).
  destruct (char_in "/" n) eqn:Hslash; [done|].
  rewrite name_groups_no_slash in Hn by done. by apply elem_of_nil in Hn.
Qed.

(** X2: the groups and their members depend on the set of names only, not
    on the order of the records nor on a name given twice: two lists with
    the same names give the same groups, with the same members. *)
Theorem X2_groups_depend_on_names_only ns ns' :
  (∀ n, n ∈ ns ↔ n ∈ ns') →
  ∀ g, (g ∈ dict_keys (group_map ns) ↔ g ∈ dict_keys (group_map ns')) ∧
       ∀ hosts hosts',
         dict_get g (group_map ns) = Some hosts →
         dict_get g (group_map ns') = Some hosts' →
         hosts ≡ₚ hosts'.
Proof.
  intros Hsame g. split.
  - rewrite !group_map_keys. by setoid_rewrite Hsame.
  - intros hosts hosts' Hg Hg'.
    destruct (group_map_wf ns) as [_ Hwf], (group_map_wf ns') as [_ Hwf'].
    apply NoDup_Permutation; [by apply (Hwf g) | by apply (Hwf' g) |].
    intros n. rewrite (group_map_members ns g hosts n Hg).
    rewrite (group_map_members ns' g hosts' n Hg'). by rewrite Hsame.
Qed.

Lemma X2_groups_depend_on_names_only_witness :
  (("team" ∈ dict_keys (group_map ["team/web"; "team/db"; "team/web"]) ↔
    "team" ∈ dict_keys (group_map ["team/db"; "team/web"])) ∧
   ∀ hosts hosts',
     dict_get "team" (group_map ["team/web"; "team/db"; "team/web"]) = Some hosts →
     dict_get "team" (group_map ["team/db"; "team/web"]) = Some hosts' →
     hosts ≡ₚ hosts').
Proof.
  apply (X2_groups_depend_on_names_only
           ["team/web"; "team/db"; "team/web"] ["team/db"; "team/web"]).
  intros n. rewrite !elem_of_cons, !elem_of_nil. tauto.
Defined.

(** X3: whatever its form, a name yields at most as many groups as it has
    slashes (none without a slash), and no group is ever named [""] or
    ["."]. *)
Theorem X3_name_groups_bounds name :
  (length (name_groups name) ≤ count_char "/" name)%nat ∧
  ∀ g, g ∈ name_groups name → g ≠ "" ∧ g ≠ ".".
Proof.
  rewrite name_groups_formula. split.
  - rewrite length_fmap, length_seq. pose proof (Path_tail_length name). lia.
  - intros g (i & -> & [_ Hi]%elem_of_seq)%list_elem_of_fmap.
    pose proof (Path_tail_ok name) as Hok.
    pose proof (splitroot_cases name) as (Hroot & _).
    assert (root (Path name) = (splitroot name).1) as Hr
      by (unfold Path; by destruct (splitroot name)).
    rewrite <- Hr in Hroot. clear Hr.
    destruct (tail (Path name)) as [|x xs] eqn:Htail; [simpl in Hi; lia|].
    apply Forall_cons in Hok as [[Hx Hdot] _].
    replace (length (x :: xs) - S i) with (S (length xs - S i)) by (simpl in *; lia).
    unfold as_posix. simpl.
    set (rest := take (length xs - S i) xs).
    repeat (apply elem_of_cons in Hroot as [->|Hroot]); [..|by apply elem_of_nil in Hroot].
    + rewrite decide_True by done.
      rewrite decide_False by by apply (join_cons_nonempty "/" x).
      split; [by apply (join_cons_nonempty "/" x) | by apply join_cons_not_dot].
    + by rewrite decide_False by done.
    + by rewrite decide_False by done.
Qed.

(** X4: the groups are closed under ancestors: every ancestor of a derived
    group is itself a derived group, and it has all the members of that
    group. *)
Theorem X4_groups_closed_under_ancestors ns g g' :
  g ∈ dict_keys (group_map ns) → g' ∈ name_groups g →
  g' ∈ dict_keys (group_map ns) ∧
  ∀ hosts hosts',
    dict_get g (group_map ns) = Some hosts →
    dict_get g' (group_map ns) = Some hosts' →
    hosts ⊆ hosts'.
Proof.
  intros (n & Hn & Hg)%group_map_keys Hg'. split.
  - apply group_map_keys. exists n. split; [done|]. by apply (name_groups_closed n g).
  - intros hosts hosts' Hhosts Hhosts' m.
    rewrite (group_map_members ns g hosts m Hhosts).
    rewrite (group_map_members ns g' hosts' m Hhosts').
    intros [Hm Hmg]. split; [done|]. by apply (name_groups_closed m g).
Qed.

Lemma X4_groups_closed_under_ancestors_witness :
  let ns := ["team//project/web1"; "team/db"; "solo"] in
  "team" ∈ dict_keys (group_map ns) ∧
  ∀ hosts hosts',
    dict_get "team/project" (group_map ns) = Some hosts →
    dict_get "team" (group_map ns) = Some hosts' →
    hosts ⊆ hosts'.
Proof.
  intros ns. apply (X4_groups_closed_under_ancestors ns "team/project" "team").
  - apply list_elem_of_In. vm_compute. auto.
  - apply list_elem_of_In. vm_compute. auto.
Defined.

(** X5: when [host_vars] is built without error, each connection variable
    holds the value of its field as it was given, or is missing when the
    field is missing or falsy; [network_cidr] holds the given address and
    [network_address] the parsed one, both or neither; there is no other
    key, and no key twice. *)
Theorem X5_host_vars_pass_through r hv :
  host_vars_of r = Some hv →
  dict_get "ansible_host" hv = get_truthy r "ssh_host" ∧
  dict_get "ansible_port" hv = get_truthy r "ssh_port" ∧
  dict_get "ansible_user" hv = get_truthy r "ssh_user" ∧
  dict_get "ansible_ssh_private_key_file" hv = get_truthy r "ssh_key" ∧
  dict_get "ansible_ssh_common_args" hv = get_truthy r "ssh_options" ∧
  dict_get "network_cidr" hv = get_truthy r "network_address" ∧
  dict_get "network_address" hv =
    JStr <$> (get_truthy r "network_address" ≫= ip_interface_ip) ∧
  (∀ k, k ∉ ["ansible_host"; "ansible_port"; "ansible_user";
             "ansible_ssh_private_key_file"; "ansible_ssh_common_args";
             "network_cidr"; "network_address"] → dict_get k hv = None) ∧
  NoDup (dict_keys hv).
Proof. apply host_vars_lookup. Qed.

Lemma X5_host_vars_pass_through_witness :
  let r := vm "team/web1" [("ssh_host", JStr "192.168.0.7"); ("ssh_port", JStr "2222");
                           ("ssh_user", JStr ""); ("ssh_options", JArr [JStr "-A"]);
                           ("network_address", JStr "2001:db8::5/64")] in
  let hv := [("ansible_host", JStr "192.168.0.7"); ("ansible_port", JStr "2222");
             ("ansible_ssh_common_args", JArr [JStr "-A"]);
             ("network_cidr", JStr "2001:db8::5/64");
             ("network_address", JStr "2001:db8::5")] in
  host_vars_of r = Some hv ∧
  dict_get "ansible_port" hv = get_truthy r "ssh_port" ∧
  dict_get "ansible_ssh_common_args" hv = get_truthy r "ssh_options" ∧
  dict_get "network_cidr" hv = get_truthy r "network_address".
Proof.
  intros r hv. assert (host_vars_of r = Some hv) as Hhv by by vm_compute.
  destruct (X5_host_vars_pass_through r hv Hhv) as (_ & Hport & _ & _ & Hopts & Hcidr & _).
  split_and!; [exact Hhv | exact Hport | exact Hopts | exact Hcidr].
Defined.

(** X6: when several records bear the same name, the host variables printed
    under that name are those of the last such record that has any (earlier
    ones are overwritten, later records without variables change nothing);
    this for a run that prints a document and derives no group ["_meta"]. *)
Theorem X6_last_record_wins o l1 r l2 hv doc :
  main o (l1 ++ r :: l2) = Some doc →
  "_meta" ∉ dict_keys (group_map (vm_name <$> l1 ++ r :: l2)) →
  host_vars_of r = Some hv → hv ≠ [] →
  (∀ r', r' ∈ l2 → vm_name r' = vm_name r → host_vars_of r' = Some []) →
  at_path doc ["_meta"; "hostvars"; vm_name r] = Some (JObj hv).
Proof.
  intros (inv & Hloop & Hemit & _)%main_Some Hmeta Hhv Hne Hlater.
  rewrite <- (hostvars_loop_last l1 r l2 _ inv hv Hloop) by done.
  unfold at_path. simpl.
  by rewrite (emit_groups_get_other o _ inv doc "_meta" Hemit).
Qed.

Lemma X6_last_record_wins_witness :
  let first := vm "team/web" [("ssh_host", JStr "192.168.0.7"); ("ssh_port", JInt 22)] in
  let second := vm "team/web" [("ssh_host", JStr "192.168.0.8")] in
  let third := vm "team/web" [("ssh_port", JInt 0)] in
  let doc :=
    [("all", JObj [("hosts", JArr [JStr "team/web"; JStr "team/web"; JStr "team/web"]);
                   ("vars", JObj [("ansible_python_interpreter",
                                   JStr "/usr/bin/python3")]);
                   ("children", JArr [JStr "team"])]);
     ("_meta", JObj [("hostvars", JObj [("team/web",
        JObj [("ansible_host", JStr "192.168.0.8")])])]);
     ("team", JObj [("hosts", JArr [JStr "team/web"])])] in
  main insertion_order [first; second; third] = Some doc ∧
  at_path doc ["_meta"; "hostvars"; "team/web"] =
    Some (JObj [("ansible_host", JStr "192.168.0.8")]).
Proof.
  intros first second third doc.
  assert (main insertion_order ([first] ++ second :: [third]) = Some doc) as Hmain
    by by vm_compute.
  split; [exact Hmain|].
  apply (X6_last_record_wins insertion_order [first] second [third] _ doc Hmain).
  - intros Hin%list_elem_of_In. vm_compute in Hin. by destruct Hin as [?|[]].
  - by vm_compute.
  - done.
  - intros r' ->%list_elem_of_singleton _. by vm_compute.
Defined.

(** X7: on any builder none of whose groups is named ["_meta"], the two
    stages can run in either order: the same builder results, or both
    orders raise. *)
Theorem X7_stages_commute o self :
  "_meta" ∉ dict_keys (group_map (names self)) →
  hostvars self ≫= groups o = groups o self ≫= hostvars.
Proof. apply stages_commute. Qed.

Lemma X7_stages_commute_witness :
  let self := init [vm "team/project/web1" [("ssh_host", JStr "192.168.0.7");
                                           ("network_address", JStr "10.0.0.5/24")];
                    vm "team/db" [("ssh_user", JStr "root")]; vm "solo" []] in
  hostvars self ≫= groups insertion_order = groups insertion_order self ≫= hostvars.
Proof.
  intros self. apply (X7_stages_commute insertion_order self). not_elem_of_list.
Defined.

(** X8: every document printed has the keys ["all"] and ["_meta"] first, in
    this order; every other key is an ancestor of the name of some record,
    and every such ancestor is a key; no key comes twice. *)
Theorem X8_document_keys o records doc :
  main o records = Some doc →
  NoDup (dict_keys doc) ∧
  take 2 (dict_keys doc) = ["all"; "_meta"] ∧
  ∀ k, k ∈ dict_keys doc ↔
       k = "all" ∨ k = "_meta" ∨ ∃ n, n ∈ vm_name <$> records ∧ k ∈ name_groups n.
Proof.
  intros (inv & _ & Hemit & _ & Hkeys & _)%main_Some.
  apply emit_groups_keys in Hemit as ([extra Hprefix] & Hnd & Hin).
  rewrite Hkeys in *. split_and!.
  - apply Hnd, (bool_decide_unpack _). by vm_compute.
  - by rewrite Hprefix.
  - intros k. rewrite Hin, group_map_keys, !elem_of_cons, elem_of_nil. tauto.
Qed.

Lemma X8_document_keys_witness :
  let records := [vm "all/x" [("ssh_host", JStr "192.168.0.7")]; vm "team/db" []] in
  let doc :=
    [("all", JObj [("hosts", JArr [JStr "all/x"])]);
     ("_meta", JObj [("hostvars", JObj [("all/x",
        JObj [("ansible_host", JStr "192.168.0.7")])])]);
     ("team", JObj [("hosts", JArr [JStr "team/db"])])] in
  main insertion_order records = Some doc ∧
  NoDup (dict_keys doc) ∧
  take 2 (dict_keys doc) = ["all"; "_meta"].
Proof.
  intros records doc.
  assert (main insertion_order records = Some doc) as Hmain by by vm_compute.
  destruct (X8_document_keys insertion_order records doc Hmain) as (Hnd & Htake & _).
  split_and!; [exact Hmain | exact Hnd | exact Htake].
Defined.

(** X9: when a document is printed and no group is named ["all"], its
    entry ["all"] is exactly the names of the records in the order given
    (a repeated name repeated), the interpreter variable, and, when there
    are groups, [children] listing each group once; and each group has an
    entry that lists exactly its members. *)
Theorem X9_document_without_all_group o records doc :
  main o records = Some doc →
  "all" ∉ dict_keys (group_map (vm_name <$> records)) →
  dict_get "all" doc =
    Some (JObj ([("hosts", JArr (JStr <$> (vm_name <$> records)));
                 ("vars", JObj [("ansible_python_interpreter",
                                 JStr "/usr/bin/python3")])] ++
                match group_map (vm_name <$> records) with
                | [] => []
                | gm => [("children", JArr (JStr <$> dict_keys gm))]
                end)) ∧
  ∀ g hosts, dict_get g (group_map (vm_name <$> records)) = Some hosts →
    ∃ l, dict_get g doc = Some (JObj [("hosts", JArr (JStr <$> l))]) ∧ l ≡ₚ hosts.
Proof.
  intros (inv & _ & Hemit & _ & _ & Hall)%main_Some Hnotin.
  destruct (group_map_wf (vm_name <$> records)) as [Hnd _].
  revert Hemit Hnotin Hnd. generalize (group_map (vm_name <$> records)). intros gm.
  unfold emit_groups. destruct gm as [|p gm].
  { intros [= <-] _ _. split; [by rewrite Hall | done]. }
  cbv beta iota. generalize (p :: gm). clear p gm. intros gm. rewrite Hall. simpl.
  intros [= <-] Hnotin Hnd. split.
  - rewrite emit_fold_get_other by done. by rewrite dict_get_set_eq.
  - intros g hosts Hg. exists (enum o hosts). split; [|apply enum_perm].
    by apply emit_fold_get.
Qed.

Lemma X9_document_without_all_group_witness :
  let records := [vm "team/web" []; vm "solo" []; vm "team/web" []] in
  let doc :=
    [("all", JObj [("hosts", JArr [JStr "team/web"; JStr "solo"; JStr "team/web"]);
                   ("vars", JObj [("ansible_python_interpreter",
                                   JStr "/usr/bin/python3")]);
                   ("children", JArr [JStr "team"])]);
     ("_meta", JObj [("hostvars", JObj [])]);
     ("team", JObj [("hosts", JArr [JStr "team/web"])])] in
  main insertion_order records = Some doc ∧
  dict_get "all" doc =
    Some (JObj [("hosts", JArr [JStr "team/web"; JStr "solo"; JStr "team/web"]);
                ("vars", JObj [("ansible_python_interpreter",
                                JStr "/usr/bin/python3")]);
                ("children", JArr [JStr "team"])]).
Proof.
  intros records doc.
  assert (main insertion_order records = Some doc) as Hmain by by vm_compute.
  split; [exact Hmain|].
  refine (proj1 (X9_document_without_all_group insertion_order records doc Hmain _)).
  not_elem_of_list.
Defined.

(** X10: [hostvars] changes nothing of a builder but the entry ["_meta"] of
    its inventory: records, names, the keys of the inventory and every other
    entry stay as they were, and under [_meta.hostvars] the entries of names
    that no record bears stay as they were. *)
Theorem X10_hostvars_frame self self' :
  hostvars self = Some self' →
  vms self' = vms self ∧ names self' = names self ∧
  dict_keys (inventory self') = dict_keys (inventory self) ∧
  (∀ k, k ≠ "_meta" → dict_get k (inventory self') = dict_get k (inventory self)) ∧
  (∀ n, n ∉ vm_name <$> vms self →
        at_path (inventory self') ["_meta"; "hostvars"; n] =
        at_path (inventory self) ["_meta"; "hostvars"; n]).
Proof.
  unfold hostvars.
  destruct (for_each hostvars_body (vms self) (inventory self)) as [inv|] eqn:Hloop;
    simpl; [|done].
  intros [= <-]. simpl. destruct (hostvars_loop_frame _ _ _ Hloop) as [Hkeys Hget].
  split_and!; [done..|]. intros n Hn.
  apply (hostvars_loop_entry (vms self) _ _ n Hloop).
  intros r Hr Heq. destruct Hn. rewrite <- Heq. apply list_elem_of_fmap. eauto.
Qed.

Lemma X10_hostvars_frame_witness :
  let self :=
    {| vms := [vm "web" [("ssh_host", JStr "192.168.0.7")]];
       names := ["web"];
       inventory := [("all", JObj [("hosts", JArr [JStr "web"])]);
                     ("_meta", JObj [("hostvars", JObj [("old", JObj [])])]);
                     ("kept", JStr "as it is")] |} in
  let self' :=
    {| vms := [vm "web" [("ssh_host", JStr "192.168.0.7")]];
       names := ["web"];
       inventory := [("all", JObj [("hosts", JArr [JStr "web"])]);
                     ("_meta", JObj [("hostvars", JObj [("old", JObj []);
                        ("web", JObj [("ansible_host", JStr "192.168.0.7")])])]);
                     ("kept", JStr "as it is")] |} in
  hostvars self = Some self' ∧
  dict_keys (inventory self') = dict_keys (inventory self) ∧
  at_path (inventory self') ["_meta"; "hostvars"; "old"] =
  at_path (inventory self) ["_meta"; "hostvars"; "old"].
Proof.
  intros self self'.
  assert (hostvars self = Some self') as Hrun by by vm_compute.
  destruct (X10_hostvars_frame self self' Hrun) as (_ & _ & Hkeys & _ & Hold).
  split_and!; [exact Hrun | exact Hkeys |]. apply Hold. not_elem_of_list.
Defined.

(** X11: [groups] changes nothing of a builder but the entry ["all"] and
    the entries named after the groups: every other entry stays as it was,
    no key is removed, and on a builder without groups nothing changes. *)
Theorem X11_groups_frame o self self' :
  groups o self = Some self' →
  vms self' = vms self ∧ names self' = names self ∧
  (∀ k, k ≠ "all" → k ∉ dict_keys (group_map (names self)) →
        dict_get k (inventory self') = dict_get k (inventory self)) ∧
  (∀ k, k ∈ dict_keys (inventory self) → k ∈ dict_keys (inventory self')) ∧
  (group_map (names self) = [] → inventory self' = inventory self).
Proof.
  unfold groups.
  destruct (emit_groups o _ (inventory self)) as [inv|] eqn:Hemit; simpl; [|done].
  intros [= <-]. simpl. split_and!; [done..| | |].
  - intros k Hall Hk. by apply (emit_groups_get_other o _ _ _ k Hemit).
  - intros k Hk. apply (emit_groups_keys o _ _ _ Hemit). by left.
  - intros Hnil. rewrite Hnil in Hemit. by injection Hemit as <-.
Qed.

Lemma X11_groups_frame_witness :
  let self := init [vm "team/web" []; vm "solo" []] in
  ∃ self', groups insertion_order self = Some self' ∧
    dict_get "_meta" (inventory self') = dict_get "_meta" (inventory self).
Proof.
  intros self. eexists. split; [by vm_compute|].
  eapply (X11_groups_frame insertion_order self); [by vm_compute | done |].
  not_elem_of_list.
Defined.

(** X12: on any builder, [hostvars] raises exactly when some record has an
    address that cannot be parsed, or some record has host variables while
    [inventory["_meta"]["hostvars"]] is not a dict; [groups] raises exactly
    when some group is derived while [inventory["all"]] is not a dict. *)
Theorem X12_stage_errors o self :
  (hostvars self = None ↔
     (∃ r, r ∈ vms self ∧ host_vars_of r = None) ∨
     (¬ has_hostvars (inventory self) ∧
      ∃ r hv, r ∈ vms self ∧ host_vars_of r = Some hv ∧ hv ≠ [])) ∧
  (groups o self = None ↔
     group_map (names self) ≠ [] ∧
     ∀ all, dict_get "all" (inventory self) ≠ Some (JObj all)).
Proof.
  split.
  - rewrite <- hostvars_loop_None. unfold hostvars.
    by destruct (for_each hostvars_body (vms self) (inventory self)).
  - unfold groups, emit_groups. destruct (group_map (names self)) as [|p gm]; simpl.
    { split; [done | by intros [? _]]. }
    destruct (dict_get "all" (inventory self)) as [[| | | | |all]|]; simpl;
      try (split; [by intros _ | done]).
    split; [done|]. intros [_ Hno]. by destruct (Hno all).
Qed.

(** X13: when [network_address] is a string that reads as an IPv4 interface
    (an address in dotted form, alone or followed by a slash and a prefix
    length or mask), the record raises no error, [network_cidr] is the
    string as given and [network_address] is its text before the slash,
    unchanged. *)
Theorem X13_ipv4_address_text r s ip :
  vm_fields r !! "network_address" = Some (JStr s) →
  v4_interface s = Some ip →
  ∃ hv addr,
    host_vars_of r = Some hv ∧ head (split "/" s) = Some addr ∧
    dict_get "network_cidr" hv = Some (JStr s) ∧
    dict_get "network_address" hv = Some (JStr addr).
Proof.
  intros Hfield Hv4. destruct (v4_interface_str s ip Hv4) as [Hne Hhead].
  assert (get_truthy r "network_address" = Some (JStr s)) as Hget.
  { apply get_truthy_Some. split; [done|]. simpl. by destruct s. }
  assert (ip_interface_ip (JStr s) = Some (v4_str ip)) as Hip
    by (simpl; by rewrite Hv4).
  assert (host_vars_of r = Some (host_vars_list r (Some (JStr (v4_str ip))))) as Hhv.
  { by rewrite host_vars_of_eq, Hget, Hip. }
  destruct (host_vars_lookup r _ Hhv) as (_ & _ & _ & _ & _ & Hcidr & Haddr & _).
  eexists _, (v4_str ip). split_and!; [done.. | by rewrite Hcidr |].
  rewrite Haddr, Hget.
  change (Some (JStr s) ≫= ip_interface_ip) with (ip_interface_ip (JStr s)).
  by rewrite Hip.
Qed.

Lemma X13_ipv4_address_text_witness :
  let r := vm "team/web1" [("network_address", JStr "192.168.122.40/255.255.255.0")] in
  ∃ hv addr,
    host_vars_of r = Some hv ∧
    head (split "/" "192.168.122.40/255.255.255.0") = Some addr ∧
    dict_get "network_cidr" hv = Some (JStr "192.168.122.40/255.255.255.0") ∧
    dict_get "network_address" hv = Some (JStr addr).
Proof.
  intros r. apply (X13_ipv4_address_text r _ 3232266792); by vm_compute.
Defined.

(** X14: a truthy [network_address] that is not a string is handed to
    [ip_interface] all the same: [true] and the integers from 1 to
    [2^128 - 1] are read as the address of that value and raise no error,
    while a negative or larger integer, a list and a dict make the record
    raise. *)
Theorem X14_address_not_a_string r v :
  vm_fields r !! "network_address" = Some v → truthy v = true →
  (∀ b, v = JBool b → is_Some (host_vars_of r)) ∧
  (∀ n, v = JInt n → (is_Some (host_vars_of r) ↔ (0 < n < 2 ^ 128)%Z)) ∧
  (∀ l, v = JArr l → host_vars_of r = None) ∧
  (∀ d, v = JObj d → host_vars_of r = None).
Proof.
  intros Hfield Htruthy.
  assert (get_truthy r "network_address" = Some v) as Hget by by apply get_truthy_Some.
  assert (is_Some (host_vars_of r) ↔ is_Some (ip_interface_ip v)) as Hsome.
  { rewrite host_vars_of_eq, Hget. destruct (ip_interface_ip v); simpl.
    - split; by eexists.
    - split; by intros [? ?]. }
  split_and!.
  - intros b ->. apply Hsome. by eexists.
  - intros n ->. rewrite Hsome. simpl in Htruthy. apply negb_true_iff, Z.eqb_neq in Htruthy.
    unfold ip_interface_ip.
    destruct (Z.leb_spec 0 n), (Z.ltb_spec n (2 ^ 32)), (Z.ltb_spec n (2 ^ 128)); simpl;
      (split; [intros [? ?]; try done; lia | intros ?; try (by eexists); lia]).
  - intros l ->. apply host_vars_of_None. by exists (JArr l).
  - intros d ->. apply host_vars_of_None. by exists (JObj d).
Qed.

Lemma X14_address_not_a_string_witness :
  let r := vm "web" [("network_address", JInt 3232266792)] in
  host_vars_of r =
    Some [("network_cidr", JInt 3232266792); ("network_address", JStr "192.168.122.40")] ∧
  (is_Some (host_vars_of r) ↔ (0 < 3232266792 < 2 ^ 128)%Z).
Proof.
  intros r. split; [by vm_compute|].
  by apply (X14_address_not_a_string r (JInt 3232266792)).
Defined.

(** X15: the host variables of a record depend on its six optional entries
    only: its name and whatever else it carries never change them. *)
Theorem X15_other_entries_ignored r r' :
  (∀ f, f ∈ optional_fields → vm_fields r !! f = vm_fields r' !! f) →
  host_vars_of r = host_vars_of r'.
Proof.
  intros Hsame. unfold host_vars_of, pass_through, get_truthy.
  by rewrite !Hsame by elem_of_list.
Qed.

Lemma X15_other_entries_ignored_witness :
  host_vars_of (vm "team/web1" [("name", JStr "team/web1"); ("ssh_port", JInt 22);
                                ("memory", JInt 2048)]) =
  host_vars_of (vm "db" [("ssh_port", JInt 22); ("ssh_key_type", JStr "ed25519")]).
Proof.
  apply X15_other_entries_ignored. intros f Hf.
  unfold optional_fields, field_vars in Hf.
  repeat (apply elem_of_cons in Hf as [->|Hf]); [by vm_compute..|].
  by apply elem_of_nil in Hf.
Defined.
